(** * city-services-api: the service registry of [app.py]

    A shallow embedding of the Flask application in [src/app.py]:
    the in-memory registry [services], the set [ws_clients] of
    connected WebSocket clients, the ETag helper [compute_etag],
    the fan-out [broadcast], the REST handlers and the GraphQL
    resolvers, followed by the properties the specification states
    about them.

    Modelling conventions.
    - A Python [dict] is an association list in insertion order
      ([pydict]); [d.get(k)], [d[k] = v] and [del d[k]] are
      [dict_get], [dict_set] and [dict_del].
    - A parsed JSON body is a [json] value.  JSON numbers are the
      integers; a Python [str] is a [string] whose characters are the
      code points below 256.
    - A handler receives what Flask gives it: the path parameter, the
      parsed body [data] (the object left by
      [request.get_json(silent=True) or {}]), a header or query argument
      as an [option string].  What the mutations do with a parsed body
      that is not an object is modelled apart, in [create_request],
      [put_request] and [patch_request].
    - What the handlers take from outside the program is an argument:
      the 128 random bits behind [uuid.uuid4()], the clock reading
      returned by [now_iso()], and for each [ws.send(msg)] whether it
      returns or raises.
    - An uncaught Python exception is the reply [Uncaught].
    - [json.dumps], [hashlib.md5] and [uuid.uuid4] are written out after
      the Python standard library ([json.encoder], RFC 1321, [uuid.py]);
      the examples [sample_etag], [md5_empty] and [md5_abc] record values
      those libraries give. *)

From Stdlib Require Import ZArith NArith List String Ascii Bool Lia.
From Stdlib Require Import DecimalString Permutation Sorted OrderedTypeEx.
From stdpp Require Import base gmap strings list.

Import ListNotations.
Set Warnings "-register-all".
Local Open Scope string_scope.
Local Open Scope Z_scope.

(** ** JSON values and Python dictionaries *)

Definition pydict (V : Type) : Type := list (string * V).

Inductive json : Type :=
| JNull
| JBool (b : bool)
| JInt (n : Z)
| JStr (s : string)
| JArr (xs : list json)
| JObj (kvs : pydict json).

Section Dict.
Context {V : Type}.

(** [d.get(k)] *)
Fixpoint dict_get (k : string) (d : pydict V) : option V :=
  match d with
  | [] => None
  | (k', v) :: d' => if String.eqb k' k then Some v else dict_get k d'
  end.

(** [k in d] *)
Definition dict_mem (k : string) (d : pydict V) : bool :=
  match dict_get k d with Some _ => true | None => false end.

(** [d[k] = v]: an existing key keeps its place, a new one goes last. *)
Fixpoint dict_set (k : string) (v : V) (d : pydict V) : pydict V :=
  match d with
  | [] => [(k, v)]
  | (k', v') :: d' =>
      if String.eqb k' k then (k', v) :: d' else (k', v') :: dict_set k v d'
  end.

(** [del d[k]] (for a key that is present) *)
Fixpoint dict_del (k : string) (d : pydict V) : pydict V :=
  match d with
  | [] => []
  | (k', v') :: d' =>
      if String.eqb k' k then d' else (k', v') :: dict_del k d'
  end.

(** [list(d.keys())] and [list(d.values())] *)
Definition dict_keys (d : pydict V) : list string := List.map fst d.
Definition dict_values (d : pydict V) : list V := List.map snd d.
End Dict.

(** Python truth value of a JSON value: [None], [False], [0], the empty
    string, list and dict are false. *)
Definition py_truthy (v : json) : bool :=
  match v with
  | JNull => false
  | JBool b => b
  | JInt n => negb (n =? 0)
  | JStr s => negb (String.eqb s "")
  | JArr xs => match xs with [] => false | _ => true end
  | JObj kvs => match kvs with [] => false | _ => true end
  end.

(** Truth value of [d.get(k)], which is [None] for an absent key. *)
Definition get_truthy (k : string) (d : pydict json) : bool :=
  match dict_get k d with
  | Some v => py_truthy v
  | None => false
  end.

(** [d.get(k, "")] *)
Definition get_or_empty (k : string) (d : pydict json) : json :=
  match dict_get k d with
  | Some v => v
  | None => JStr ""
  end.

(** [v == t] for a value [v = d.get(k)] and a Python string [t]. *)
Definition eq_str (v : option json) (t : string) : bool :=
  match v with
  | Some (JStr s) => String.eqb s t
  | _ => false
  end.

(** ** Text: hexadecimal, JSON serialisation, UTF-8 *)

Definition code (c : ascii) : Z := Z.of_N (N_of_ascii c).
Definition chr (n : Z) : ascii := ascii_of_N (Z.to_N n).
Definition str1 (n : Z) : string := String (chr n) EmptyString.

(** The backslash and the double quote (code points 92 and 34). *)
Definition backslash : string := str1 92.
Definition dquote : string := str1 34.

Definition hex_digit (n : Z) : ascii :=
  match String.get (Z.to_nat (n mod 16)) "0123456789abcdef" with
  | Some c => c
  | None => "0"%char
  end.

(** ['%0wx' % n] for [0 <= n < 16^w]: [w] lowercase digits, most
    significant first. *)
Fixpoint hex_fixed (w : nat) (n : Z) : string :=
  match w with
  | O => EmptyString
  | S w' => String (hex_digit (Z.shiftr n (4 * Z.of_nat w'))) (hex_fixed w' n)
  end.

(** [repr] of a Python [int]. *)
Definition int_repr (n : Z) : string := NilZero.string_of_int (Z.to_int n).

(** The replacement [json.encoder] makes for one character under
    [ensure_ascii=True]: the short escapes of [ESCAPE_DCT], [\u00xx] for
    the other characters outside [' '..'~'], the character otherwise. *)
Definition escape_char (c : ascii) : string :=
  let n := code c in
  if n =? 92 then backslash +:+ backslash
  else if n =? 34 then backslash +:+ dquote
  else if n =? 8 then backslash +:+ "b"
  else if n =? 12 then backslash +:+ "f"
  else if n =? 10 then backslash +:+ "n"
  else if n =? 13 then backslash +:+ "r"
  else if n =? 9 then backslash +:+ "t"
  else if (n <? 32) || (126 <? n) then backslash +:+ "u" +:+ hex_fixed 4 n
  else String c EmptyString.

Fixpoint escape (s : string) : string :=
  match s with
  | EmptyString => EmptyString
  | String c s' => escape_char c +:+ escape s'
  end.

(** [encode_basestring_ascii] *)
Definition encode_str (s : string) : string := dquote +:+ escape s +:+ dquote.

Section SortItems.
Context {V : Type}.

Fixpoint insert_item (kv : string * V) (l : pydict V) : pydict V :=
  match l with
  | [] => [kv]
  | kv' :: l' =>
      if String.leb (fst kv) (fst kv') then kv :: l
      else kv' :: insert_item kv l'
  end.

(** [sorted(d.items())] for a dictionary with string keys: a stable sort
    by key. *)
Definition sort_items (d : pydict V) : pydict V :=
  List.fold_right insert_item [] d.
(** Order of two items: by key. *)
Definition key_le (a b : string * V) : Prop :=
  String.leb (fst a) (fst b) = true.
End SortItems.

(** [json.dumps(v, sort_keys=sort_keys, separators=(item_sep, key_sep))].
    The members of an object are serialised first and the (key, text)
    pairs sorted afterwards, which gives the text the encoder gives by
    sorting the items first. *)
Fixpoint dumps (sort_keys : bool) (item_sep key_sep : string) (v : json)
  {struct v} : string :=
  match v with
  | JNull => "null"
  | JBool true => "true"
  | JBool false => "false"
  | JInt n => int_repr n
  | JStr s => encode_str s
  | JArr xs =>
      "[" +:+ String.concat item_sep
                (List.map (dumps sort_keys item_sep key_sep) xs) +:+ "]"
  | JObj kvs =>
      let texts :=
        List.map (fun '(k, x) => (k, dumps sort_keys item_sep key_sep x)) kvs in
      let items := if sort_keys then sort_items texts else texts in
      "{" +:+ String.concat item_sep
                (List.map (fun '(k, t) => encode_str k +:+ key_sep +:+ t) items)
          +:+ "}"
  end.

(** [json.dumps(v)]: the default separators, keys in insertion order. *)
Definition dumps_default (v : json) : string := dumps false ", " ": " v.

(** [s.encode("utf-8")] for code points below 256. *)
Definition utf8_char (c : ascii) : list Z :=
  let n := code c in
  if n <? 128 then [n]
  else [Z.lor 192 (Z.shiftr n 6); Z.lor 128 (Z.land n 63)].

Definition encode_utf8 (s : string) : list Z :=
  List.flat_map utf8_char (list_ascii_of_string s).

(** ** MD5 (RFC 1321), as [hashlib.md5(raw).hexdigest()] *)

Module MD5.

Definition w32 (x : Z) : Z := Z.land x 0xffffffff.

Definition rotl (x c : Z) : Z :=
  w32 (Z.lor (Z.shiftl x c) (Z.shiftr x (32 - c))).

Definition s_tab : list Z :=
  [ 7; 12; 17; 22; 7; 12; 17; 22; 7; 12; 17; 22; 7; 12; 17; 22;
    5; 9; 14; 20; 5; 9; 14; 20; 5; 9; 14; 20; 5; 9; 14; 20;
    4; 11; 16; 23; 4; 11; 16; 23; 4; 11; 16; 23; 4; 11; 16; 23;
    6; 10; 15; 21; 6; 10; 15; 21; 6; 10; 15; 21; 6; 10; 15; 21 ].

(** [floor(2^32 * abs(sin(i + 1)))] *)
Definition k_tab : list Z :=
  [
    0xd76aa478; 0xe8c7b756; 0x242070db; 0xc1bdceee;
    0xf57c0faf; 0x4787c62a; 0xa8304613; 0xfd469501;
    0x698098d8; 0x8b44f7af; 0xffff5bb1; 0x895cd7be;
    0x6b901122; 0xfd987193; 0xa679438e; 0x49b40821;
    0xf61e2562; 0xc040b340; 0x265e5a51; 0xe9b6c7aa;
    0xd62f105d; 0x02441453; 0xd8a1e681; 0xe7d3fbc8;
    0x21e1cde6; 0xc33707d6; 0xf4d50d87; 0x455a14ed;
    0xa9e3e905; 0xfcefa3f8; 0x676f02d9; 0x8d2a4c8a;
    0xfffa3942; 0x8771f681; 0x6d9d6122; 0xfde5380c;
    0xa4beea44; 0x4bdecfa9; 0xf6bb4b60; 0xbebfbc70;
    0x289b7ec6; 0xeaa127fa; 0xd4ef3085; 0x04881d05;
    0xd9d4d039; 0xe6db99e5; 0x1fa27cf8; 0xc4ac5665;
    0xf4292244; 0x432aff97; 0xab9423a7; 0xfc93a039;
    0x655b59c3; 0x8f0ccc92; 0xffeff47d; 0x85845dd1;
    0x6fa87e4f; 0xfe2ce6e0; 0xa3014314; 0x4e0811a1;
    0xf7537e82; 0xbd3af235; 0x2ad7d2bb; 0xeb86d391 ].

(** [n] bytes of [x], least significant first. *)
Fixpoint le_bytes (n : nat) (x : Z) : list Z :=
  match n with
  | O => []
  | S n' => Z.land x 255 :: le_bytes n' (Z.shiftr x 8)
  end.

Fixpoint le_word (bs : list Z) : Z :=
  match bs with
  | [] => 0
  | b :: bs' => Z.lor b (Z.shiftl (le_word bs') 8)
  end.

(** The message, a byte [0x80], zero bytes up to 56 modulo 64, and the
    length in bits on 8 bytes. *)
Definition pad (msg : list Z) : list Z :=
  let len := Z.of_nat (List.length msg) in
  msg ++ [128] ++ List.repeat 0 (Z.to_nat ((55 - len) mod 64))
      ++ le_bytes 8 (8 * len).

(** [n] consecutive groups of [size] elements. *)
Fixpoint groups (size n : nat) (bs : list Z) : list (list Z) :=
  match n with
  | O => []
  | S n' => List.firstn size bs :: groups size n' (List.skipn size bs)
  end.

Definition state : Type := Z * Z * Z * Z.

Definition init : state := (0x67452301, 0xefcdab89, 0x98badcfe, 0x10325476).

Definition round (m : list Z) (st : state) (i : nat) : state :=
  let '(a, b, c, d) := st in
  let zi := Z.of_nat i in
  let '(f, g) :=
    if zi <? 16 then
      (Z.lor (Z.land b c) (Z.land (Z.lxor b 0xffffffff) d), zi)
    else if zi <? 32 then
      (Z.lor (Z.land d b) (Z.land (Z.lxor d 0xffffffff) c),
       (5 * zi + 1) mod 16)
    else if zi <? 48 then
      (Z.lxor b (Z.lxor c d), (3 * zi + 5) mod 16)
    else
      (Z.lxor c (Z.lor b (Z.lxor d 0xffffffff)), (7 * zi) mod 16) in
  let x := w32 (a + f + List.nth i k_tab 0 + List.nth (Z.to_nat g) m 0) in
  (d, w32 (b + rotl x (List.nth i s_tab 0)), b, c).

Definition block (st : state) (bs : list Z) : state :=
  let m := List.map le_word (groups 4 16 bs) in
  let '(a0, b0, c0, d0) := st in
  let '(a, b, c, d) := List.fold_left (round m) (List.seq 0 64) st in
  (w32 (a0 + a), w32 (b0 + b), w32 (c0 + c), w32 (d0 + d)).

Definition digest (msg : list Z) : list Z :=
  let p := pad msg in
  let '(a, b, c, d) :=
    List.fold_left block (groups 64 (List.length p / 64) p) init in
  List.flat_map (le_bytes 4) [a; b; c; d].

Definition hexdigest (msg : list Z) : string :=
  String.concat "" (List.map (hex_fixed 2) (digest msg)).

End MD5.

(** [compute_etag] (app.py, lines 23-25) *)
Definition compute_etag (obj : pydict json) : string :=
  let raw := encode_utf8 (dumps true "," ":" (JObj obj)) in
  MD5.hexdigest raw.

(** ** [str(uuid.uuid4())] *)

(** [uuid.UUID(bytes=..., version=4).int] for the integer [rnd] read from
    16 random bytes: the variant and version bits are forced. *)
Definition uuid4_int (rnd : Z) : Z :=
  let i := rnd mod 2 ^ 128 in
  let i := Z.land i (Z.lnot (Z.shiftl 0xc000 48)) in
  let i := Z.lor i (Z.shiftl 0x8000 48) in
  let i := Z.land i (Z.lnot (Z.shiftl 0xf000 64)) in
  Z.lor i (Z.shiftl 4 76).

(** [UUID.__str__]: the 32 hexadecimal digits in groups of 8-4-4-4-12. *)
Definition uuid_str (i : Z) : string :=
  let hex := hex_fixed 32 i in
  String.substring 0 8 hex +:+ "-" +:+ String.substring 8 4 hex +:+ "-"
    +:+ String.substring 12 4 hex +:+ "-" +:+ String.substring 16 4 hex
    +:+ "-" +:+ String.substring 20 12 hex.

Definition uuid4 (rnd : Z) : string := uuid_str (uuid4_int rnd).

(** ** The application state, replies and effects *)

(** [services] (the in-memory database, id to record) and [ws_clients]
    (the connected WebSocket clients, by connection handle). *)
Record state : Type := {
  services : pydict (pydict json);
  ws_clients : gset nat
}.

Definition init_state : state := {| services := []; ws_clients := ∅ |}.

(** A response body: a text, or [jsonify(v)] for the value [v] handed to
    it.  Flask serialises [v] with the keys of every object sorted, so a
    [JsonBody] tells which members an object of the response has, not the
    order in which the response text lists them; the elements of an array
    keep their order. *)
Inductive body : Type :=
| TextBody (s : string)
| JsonBody (v : json).

Record response : Type := {
  status : Z;
  body_of : body;
  headers : list (string * string)
}.

Inductive exn : Type :=
| KeyError (k : string)
| AttributeError (attr : string)
| TypeError.

Inductive reply : Type :=
| Reply (r : response)
| Uncaught (e : exn).

(** What a handler does to the outside: a call [broadcast(event)] and,
    inside it, each [ws.send(msg)]. *)
Inductive effect : Type :=
| Broadcast (event : json)
| Send (h : nat) (msg : string).

Record outcome : Type := {
  after : state;
  reply_of : reply;
  trace : list effect
}.

Definition answer (st : state) (r : response) : outcome :=
  {| after := st; reply_of := Reply r; trace := [] |}.

Definition raise (st : state) (e : exn) : outcome :=
  {| after := st; reply_of := Uncaught e; trace := [] |}.

Definition json_response (code : Z) (v : json) : response :=
  {| status := code; body_of := JsonBody v; headers := [] |}.

Definition not_found : response :=
  json_response 404 (JObj [("error", JStr "not_found")]).

Definition missing_response (missing : list string) : response :=
  json_response 400
    (JObj [("error", JStr "missing_fields");
           ("fields", JArr (List.map JStr missing))]).

(** ** [broadcast] (app.py, lines 28-37) *)

(** The first loop: one [ws.send(msg)] for each handle of the snapshot, in
    its order; a handle whose send raises is appended to [dead]. *)
Fixpoint deliver (send_ok : nat -> string -> bool) (msg : string)
  (snapshot dead : list nat) : list nat * list effect :=
  match snapshot with
  | [] => (dead, [])
  | h :: rest =>
      let dead' := if send_ok h msg then dead else (dead ++ [h])%list in
      let '(d, log) := deliver send_ok msg rest dead' in
      (d, Send h msg :: log)
  end.

(** The second loop: [ws_clients.discard(ws)] for each dead handle. *)
Definition discard_all (dead : list nat) (clients : gset nat) : gset nat :=
  List.fold_left (fun s h => s ∖ {[h]}) dead clients.

Definition broadcast (send_ok : nat -> string -> bool) (event : json)
  (clients : gset nat) : gset nat * list effect :=
  let msg := dumps_default event in
  let '(dead, log) := deliver send_ok msg (elements clients) [] in
  (discard_all dead clients, log).

(** ** REST handlers (app.py, lines 58-165) *)

(** The handlers below take the body as the dictionary [data]; what they
    do with a parsed body that is not a dictionary is in
    [create_request], [put_request] and [patch_request] further down. *)

Definition required : list string := ["type"; "name"; "address"].

(** [[k for k in required if not data.get(k)]] *)
Definition missing_fields (data : pydict json) : list string :=
  List.filter (fun k => negb (get_truthy k data)) required.

(** [d[k]] followed by [cont], or [KeyError]. *)
Definition item {V : Type} (st : state) (k : string) (d : pydict V)
  (cont : V -> outcome) : outcome :=
  match dict_get k d with
  | Some v => cont v
  | None => raise st (KeyError k)
  end.

Definition created_event (service : pydict json) : json :=
  JObj [("event", JStr "serviceCreated"); ("service", JObj service)].

Definition create_service (rnd : Z) (now : string)
  (send_ok : nat -> string -> bool) (data : pydict json) (st : state)
  : outcome :=
  match missing_fields data with
  | (_ :: _) as missing => answer st (missing_response missing)
  | [] =>
      let sid := uuid4 rnd in
      item st "type" data (fun ty =>
      item st "name" data (fun nm =>
      item st "address" data (fun ad =>
        let service :=
          [("id", JStr sid); ("type", ty); ("name", nm); ("address", ad);
           ("hours", get_or_empty "hours" data);
           ("phone", get_or_empty "phone" data);
           ("updatedAt", JStr now)] in
        let services' := dict_set sid service (services st) in
        let event := created_event service in
        let '(clients', log) := broadcast send_ok event (ws_clients st) in
        {| after := {| services := services'; ws_clients := clients' |};
           reply_of :=
             Reply {| status := 201;
                      body_of := JsonBody (JObj service);
                      headers := [("Location", "/api/v1/services/" +:+ sid)] |};
           trace := Broadcast event :: log |})))
  end.

(** [if t: items = [s for s in items if s.get("type") == t]] *)
Definition select_type (t : option string) (items : list (pydict json))
  : list (pydict json) :=
  match t with
  | Some ((String _ _) as t') =>
      List.filter (fun s => eq_str (dict_get "type" s) t') items
  | _ => items
  end.

Definition list_services (t : option string) (st : state) : reply :=
  let items := dict_values (services st) in
  let items := select_type t items in
  Reply (json_response 200 (JArr (List.map JObj items))).

Definition cache_control : string := "private, max-age=0, must-revalidate".

(** [if inm and inm == etag] *)
Definition inm_matches (inm : option string) (etag : string) : bool :=
  match inm with
  | Some x => negb (String.eqb x "") && String.eqb x etag
  | None => false
  end.

Definition get_service (inm : option string) (sid : string) (st : state)
  : reply :=
  match dict_get sid (services st) with
  | Some ((_ :: _) as service) =>
      let etag := compute_etag service in
      let hs := [("ETag", etag); ("Cache-Control", cache_control)] in
      if inm_matches inm etag then
        Reply {| status := 304; body_of := TextBody ""; headers := hs |}
      else
        Reply {| status := 200; body_of := JsonBody (JObj service);
                 headers := hs |}
  | _ => Reply not_found
  end.

(** The state in which [service] is the object stored under [sid]: in
    [put_service] and [patch_service] the record being assigned to is the
    stored object itself, so each assignment shows in [services] at
    once. *)
Definition store (sid : string) (service : pydict json) (st : state) : state :=
  {| services := dict_set sid service (services st);
     ws_clients := ws_clients st |}.

Definition put_service (now : string) (sid : string) (data : pydict json)
  (st : state) : outcome :=
  if negb (dict_mem sid (services st)) then answer st not_found
  else
    match missing_fields data with
    | (_ :: _) as missing => answer st (missing_response missing)
    | [] =>
        item st sid (services st) (fun service =>
        item st "type" data (fun ty =>
        let service := dict_set "type" ty service in
        item (store sid service st) "name" data (fun nm =>
        let service := dict_set "name" nm service in
        item (store sid service st) "address" data (fun ad =>
        let service := dict_set "address" ad service in
        let service := dict_set "hours" (get_or_empty "hours" data) service in
        let service := dict_set "phone" (get_or_empty "phone" data) service in
        let service := dict_set "updatedAt" (JStr now) service in
        answer (store sid service st) (json_response 200 (JObj service))))))
    end.

Definition patchable : list string :=
  ["type"; "name"; "address"; "hours"; "phone"].

(** [if k in data: service[k] = data[k]] *)
Definition patch_key (data svc : pydict json) (k : string) : pydict json :=
  match dict_get k data with
  | Some v => dict_set k v svc
  | None => svc
  end.

(** [for k in ["type", "name", "address", "hours", "phone"]: ...] *)
Definition apply_patch (data service : pydict json) : pydict json :=
  List.fold_left (patch_key data) patchable service.

Definition patch_service (now : string) (sid : string) (data : pydict json)
  (st : state) : outcome :=
  match dict_get sid (services st) with
  | Some ((_ :: _) as service) =>
      let service := apply_patch data service in
      let service := dict_set "updatedAt" (JStr now) service in
      answer (store sid service st) (json_response 200 (JObj service))
  | _ => answer st not_found
  end.

Definition delete_service (sid : string) (st : state) : outcome :=
  if negb (dict_mem sid (services st)) then answer st not_found
  else
    answer {| services := dict_del sid (services st);
              ws_clients := ws_clients st |}
           {| status := 204; body_of := TextBody ""; headers := [] |}.

(** ** Bodies that are not objects (app.py, lines 60, 126, 150) *)

(** [request.get_json(silent=True) or {}], where [parsed] is what
    [get_json] returns: the parsed body, or [None] (here [JNull]) when the
    request has no JSON body or one that does not parse.  Every false
    value gives the empty dictionary. *)
Definition body_or_empty (parsed : json) : json :=
  if py_truthy parsed then parsed else JObj [].

(** [k in s] for two strings: [k] occurs in [s]. *)
Fixpoint occurs_in (k s : string) : bool :=
  String.prefix k s
  || match s with
     | EmptyString => false
     | String _ s' => occurs_in k s'
     end.

(** [k in data] for a string [k] and a body that is a string (an
    occurrence) or an array (an element equal to [k]). *)
Definition key_in (k : string) (data : json) : bool :=
  match data with
  | JStr s => occurs_in k s
  | JArr xs => List.existsb (fun x => eq_str (Some x) k) xs
  | _ => false
  end.

(** [POST /api/v1/services] with any parsed body: on a true value that
    is not a dictionary, [data.get(k)] at line 63 raises
    [AttributeError]. *)
Definition create_request (rnd : Z) (now : string)
  (send_ok : nat -> string -> bool) (parsed : json) (st : state) : outcome :=
  match body_or_empty parsed with
  | JObj data => create_service rnd now send_ok data st
  | _ => raise st (AttributeError "get")
  end.

(** [PUT /api/v1/services/<sid>] with any parsed body: the id is looked
    up first (line 123), the body is read afterwards (lines 126-128). *)
Definition put_request (now sid : string) (parsed : json) (st : state)
  : outcome :=
  if negb (dict_mem sid (services st)) then answer st not_found
  else
    match body_or_empty parsed with
    | JObj data => put_service now sid data st
    | _ => raise st (AttributeError "get")
    end.

(** [PATCH /api/v1/services/<sid>] with any parsed body.  In the loop of
    lines 151-153, [k in data] raises [TypeError] on a number or [True];
    on a string or an array it is an occurrence or membership test, and
    when it holds [data[k]] raises [TypeError] before anything is
    assigned; when it holds for none of the five keys the loop assigns
    nothing, as with the empty dictionary. *)
Definition patch_request (now sid : string) (parsed : json) (st : state)
  : outcome :=
  match dict_get sid (services st) with
  | Some (_ :: _) =>
      match body_or_empty parsed with
      | JObj data => patch_service now sid data st
      | (JStr _ | JArr _) as data =>
          if List.existsb (fun k => key_in k data) patchable
          then raise st TypeError
          else patch_service now sid [] st
      | _ => raise st TypeError
      end
  | _ => answer st not_found
  end.

(** A dictionary, as opposed to the other JSON values. *)
Definition is_object (v : json) : bool :=
  match v with
  | JObj _ => true
  | _ => false
  end.

(** ** WebSocket endpoint (app.py, lines 172-182) *)

Definition connected_event : json := JObj [("event", JStr "connected")].

(** A connection is accepted: the handle joins [ws_clients] and is sent
    the acknowledgement; when that send raises, the [finally] clause
    discards the handle again. *)
Definition ws_open (send_ok : nat -> string -> bool) (h : nat) (st : state)
  : state * list effect :=
  let msg := dumps_default connected_event in
  let clients := {[h]} ∪ ws_clients st in
  let clients' := if send_ok h msg then clients else clients ∖ {[h]} in
  ({| services := services st; ws_clients := clients' |}, [Send h msg]).

(** [ws.receive()] returns [None] or raises: the [finally] clause runs. *)
Definition ws_close (h : nat) (st : state) : state :=
  {| services := services st; ws_clients := ws_clients st ∖ {[h]} |}.

(** ** GraphQL resolvers (app.py, lines 203-210) *)

Definition resolve_services (type : option string) (st : state)
  : list (pydict json) :=
  let items := dict_values (services st) in
  select_type type items.

Definition resolve_service (id : string) (st : state) : option (pydict json) :=
  dict_get id (services st).

(** ** Health and debug endpoints (app.py, lines 44-51) *)

(** [return {"status": "ok"}] *)
Definition health : reply :=
  Reply (json_response 200 (JObj [("status", JStr "ok")])).

(** [return jsonify(services), 200]: the whole registry, id to record.
    The value is the dictionary [services] itself; see [body] for the
    order of the keys in the response. *)
Definition debug_services (st : state) : reply :=
  Reply (json_response 200
           (JObj (List.map (λ kv, (fst kv, JObj (snd kv))) (services st)))).

(** ** Requests and reachable states *)

(** One request to the application, with what it reads from outside. *)
Inductive request : Type :=
| Create (rnd : Z) (now : string) (send_ok : nat -> string -> bool)
    (data : pydict json)
| ListAll (t : option string)
| Get (inm : option string) (sid : string)
| Put (now sid : string) (data : pydict json)
| Patch (now sid : string) (data : pydict json)
| Delete (sid : string)
| WsOpen (send_ok : nat -> string -> bool) (h : nat)
| WsClose (h : nat).

(** The state after a request and the effects it had. *)
Definition run (r : request) (st : state) : state * list effect :=
  match r with
  | Create rnd now send_ok data =>
      let o := create_service rnd now send_ok data st in (after o, trace o)
  | ListAll _ => (st, [])
  | Get _ _ => (st, [])
  | Put now sid data =>
      let o := put_service now sid data st in (after o, trace o)
  | Patch now sid data =>
      let o := patch_service now sid data st in (after o, trace o)
  | Delete sid =>
      let o := delete_service sid st in (after o, trace o)
  | WsOpen send_ok h => ws_open send_ok h st
  | WsClose h => (ws_close h st, [])
  end.

(** The states the application can be in: those a sequence of requests
    leads to from the empty registry. *)
Inductive reachable : state -> Prop :=
| reachable_init : reachable init_state
| reachable_step (r : request) (st : state) :
    reachable st -> reachable (fst (run r st)).

(** ** Well-formed registries *)

Definition field_names : list string :=
  ["id"; "type"; "name"; "address"; "hours"; "phone"; "updatedAt"].

(** A record stored under [sid] has the seven fields, in the order in
    which [create_service] wrote them, and its [id] is [sid]. *)
Definition wf_record (sid : string) (rec : pydict json) : Prop :=
  dict_keys rec = field_names ∧ dict_get "id" rec = Some (JStr sid).

Definition wf_state (st : state) : Prop :=
  NoDup (dict_keys (services st))
  ∧ Forall (λ kv, wf_record (fst kv) (snd kv)) (services st).

(** The record that [create_service] builds, and that [put_service]
    leaves, for the id [sid], the clock reading [now] and a body [data]
    whose required fields are [ty], [nm] and [ad]. *)
Definition record_of (now sid : string) (data : pydict json) (ty nm ad : json)
  : pydict json :=
  [("id", JStr sid); ("type", ty); ("name", nm); ("address", ad);
   ("hours", get_or_empty "hours" data); ("phone", get_or_empty "phone" data);
   ("updatedAt", JStr now)].

(** The record that [patch_service] leaves. *)
Definition patched (now : string) (data rec : pydict json) : pydict json :=
  dict_set "updatedAt" (JStr now) (apply_patch data rec).

(** ** Character classes *)

(** Every character of [s] satisfies [p]. *)
Definition string_forall (p : ascii -> bool) (s : string) : bool :=
  List.forallb p (list_ascii_of_string s).

(** The digits and the letters [a] to [f]. *)
Definition is_lower_hex (c : ascii) : bool :=
  let n := code c in
  ((48 <=? n) && (n <=? 57)) || ((97 <=? n) && (n <=? 102)).

(** The characters of an identifier: those of [is_lower_hex] and the
    hyphen. *)
Definition is_id_char (c : ascii) : bool :=
  is_lower_hex c || (code c =? 45).

(** The printable ASCII characters, from the space to the tilde. *)
Definition is_printable (c : ascii) : bool :=
  let n := code c in (32 <=? n) && (n <=? 126).

(** ** A sample run *)

(** The body of the end-to-end scenario of the specification. *)
Definition sample_data : pydict json :=
  [("type", JStr "clinic"); ("name", JStr "Hope Clinic");
   ("address", JStr "1 Main St")].

Definition sample_now : string := "2024-01-01T00:00:00+00:00".

Definition sample_sid : string := uuid4 7.

Definition sample_record : pydict json :=
  [("id", JStr "00000000-0000-4000-8000-000000000007");
   ("type", JStr "clinic"); ("name", JStr "Hope Clinic");
   ("address", JStr "1 Main St"); ("hours", JStr ""); ("phone", JStr "");
   ("updatedAt", JStr "2024-01-01T00:00:00+00:00")].

(** The registry after one create on the empty registry. *)
Definition sample_state : state :=
  fst (run (Create 7 sample_now (λ _ _, true) sample_data) init_state).

(** Membership in a list given by its elements. *)
Ltac elem_list :=
  repeat first [apply list_elem_of_here | apply list_elem_of_further].

(** * Properties *)

(** ** Dictionaries *)

Section DictFacts.
Context {V : Type}.
Implicit Types (d : pydict V) (k : string) (v : V).

Lemma dict_get_set_eq k v d : dict_get k (dict_set k v d) = Some v.
Proof.
  induction d as [|[k' v'] d IH]; simpl.
  - by rewrite String.eqb_refl.
  - destruct (String.eqb_spec k' k) as [->|Hne]; simpl.
    + by rewrite String.eqb_refl.
    + by apply String.eqb_neq in Hne as ->.
Qed.

Lemma dict_get_set_ne k k' v d :
  k ≠ k' → dict_get k' (dict_set k v d) = dict_get k' d.
Proof.
  intros Hne. induction d as [|[k0 v0] d IH]; simpl.
  - by apply String.eqb_neq in Hne as ->.
  - destruct (String.eqb_spec k0 k) as [->|Hk]; simpl.
    + by apply String.eqb_neq in Hne as ->.
    + by rewrite IH.
Qed.

Lemma dict_get_set k k' v d :
  dict_get k' (dict_set k v d)
  = if String.eqb k k' then Some v else dict_get k' d.
Proof.
  destruct (String.eqb_spec k k') as [<-|Hne].
  - apply dict_get_set_eq.
  - by apply dict_get_set_ne.
Qed.

Lemma dict_get_None_keys k d : dict_get k d = None ↔ k ∉ dict_keys d.
Proof.
  induction d as [|[k' v'] d IH]; simpl.
  - split; [intros _; apply not_elem_of_nil | done].
  - rewrite not_elem_of_cons.
    destruct (String.eqb_spec k' k) as [->|Hne]; split; try done.
    + by intros [? _].
    + intros ?. split; [congruence | by apply IH].
    + intros [_ ?]. by apply IH.
Qed.

Lemma dict_get_Some_keys k v d : dict_get k d = Some v → k ∈ dict_keys d.
Proof.
  intros Hget. destruct (decide (k ∈ dict_keys d)) as [|Hn]; [done|].
  apply dict_get_None_keys in Hn. congruence.
Qed.

Lemma dict_mem_keys k d : dict_mem k d = true ↔ k ∈ dict_keys d.
Proof.
  unfold dict_mem. destruct (dict_get k d) eqn:E.
  - split; [intros _; by eapply dict_get_Some_keys | done].
  - split; [done | intros Hin]. by apply dict_get_None_keys in E.
Qed.

Lemma dict_keys_set_old k v d :
  k ∈ dict_keys d → dict_keys (dict_set k v d) = dict_keys d.
Proof.
  induction d as [|[k' v'] d IH]; simpl.
  - by intros ?%elem_of_nil.
  - intros Hin. destruct (String.eqb_spec k' k) as [->|Hne]; simpl; [done|].
    f_equal. apply IH. apply elem_of_cons in Hin as [->|]; done.
Qed.

Lemma dict_keys_set_new k v d :
  k ∉ dict_keys d → dict_keys (dict_set k v d) = (dict_keys d ++ [k])%list.
Proof.
  induction d as [|[k' v'] d IH]; simpl; [done|].
  rewrite not_elem_of_cons. intros [Hne Hnin].
  destruct (String.eqb_spec k' k) as [->|_]; simpl; [done|].
  f_equal. by apply IH.
Qed.

Lemma dict_set_NoDup k v d :
  NoDup (dict_keys d) → NoDup (dict_keys (dict_set k v d)).
Proof.
  intros Hnd. destruct (decide (k ∈ dict_keys d)) as [Hin|Hnin].
  - by rewrite dict_keys_set_old.
  - rewrite dict_keys_set_new by done.
    apply NoDup_app. repeat split; [done| |apply NoDup_singleton].
    intros x Hx ->%list_elem_of_singleton. done.
Qed.

Lemma dict_del_absent k d : dict_get k d = None → dict_del k d = d.
Proof.
  induction d as [|[k' v'] d IH]; simpl; [done|].
  destruct (String.eqb_spec k' k) as [->|Hne]; [done|].
  intros ?. f_equal. by apply IH.
Qed.

Lemma dict_get_del_ne k k' d :
  k ≠ k' → dict_get k' (dict_del k d) = dict_get k' d.
Proof.
  intros Hne. induction d as [|[k0 v0] d IH]; simpl; [done|].
  destruct (String.eqb_spec k0 k) as [->|Hk]; simpl.
  - by apply String.eqb_neq in Hne as ->.
  - by rewrite IH.
Qed.

Lemma dict_keys_del_subseteq k d : dict_keys (dict_del k d) ⊆ dict_keys d.
Proof.
  induction d as [|[k' v'] d IH]; simpl; [done|].
  destruct (String.eqb_spec k' k) as [->|Hne]; simpl.
  - intros x Hx. apply elem_of_cons. by right.
  - intros x [->|Hx]%elem_of_cons; apply elem_of_cons;
      [by left | right; by apply IH].
Qed.

Lemma dict_del_NoDup k d :
  NoDup (dict_keys d) → NoDup (dict_keys (dict_del k d)).
Proof.
  induction d as [|[k' v'] d IH]; simpl; [done|].
  rewrite NoDup_cons. intros [Hnin Hnd].
  destruct (String.eqb_spec k' k) as [->|Hne]; simpl; [done|].
  apply NoDup_cons. split; [|by apply IH].
  intros Hin. by apply Hnin, (dict_keys_del_subseteq k d).
Qed.

Lemma dict_get_del_eq k d :
  NoDup (dict_keys d) → dict_get k (dict_del k d) = None.
Proof.
  induction d as [|[k' v'] d IH]; simpl; [done|].
  rewrite NoDup_cons. intros [Hnin Hnd].
  destruct (String.eqb_spec k' k) as [->|Hne]; simpl.
  - by apply dict_get_None_keys.
  - apply String.eqb_neq in Hne as ->. by apply IH.
Qed.

Lemma dict_get_single_ne k k' v : k' ≠ k → dict_get k [(k', v)] = None.
Proof. intros Hne. simpl. by apply String.eqb_neq in Hne as ->. Qed.

(** What holds of every entry holds of the entry [d.get(k)] finds. *)
Lemma dict_get_Forall (P : string → V → Prop) k v d :
  Forall (λ kv, P (fst kv) (snd kv)) d → dict_get k d = Some v → P k v.
Proof.
  induction 1 as [|[k' v'] d HP _ IH]; simpl; [done|].
  destruct (String.eqb_spec k' k) as [->|_]; [|done].
  intros [= <-]. done.
Qed.

Lemma dict_set_Forall (P : string → V → Prop) k v d :
  P k v → Forall (λ kv, P (fst kv) (snd kv)) d →
  Forall (λ kv, P (fst kv) (snd kv)) (dict_set k v d).
Proof.
  intros Hkv. induction 1 as [|[k' v'] d HP Hd IH]; simpl.
  - by repeat constructor.
  - destruct (String.eqb_spec k' k) as [->|_]; by constructor.
Qed.

Lemma dict_del_Forall (P : string → V → Prop) k d :
  Forall (λ kv, P (fst kv) (snd kv)) d →
  Forall (λ kv, P (fst kv) (snd kv)) (dict_del k d).
Proof.
  induction 1 as [|[k' v'] d HP Hd IH]; simpl; [done|].
  destruct (String.eqb_spec k' k) as [->|_]; [done | by constructor].
Qed.

End DictFacts.

(** ** Validation *)

Lemma get_truthy_Some k data :
  get_truthy k data = true →
  ∃ v, dict_get k data = Some v ∧ py_truthy v = true.
Proof.
  unfold get_truthy. destruct (dict_get k data) as [v|]; [eauto | done].
Qed.

Lemma missing_fields_nil data :
  missing_fields data = [] ↔
  get_truthy "type" data = true ∧ get_truthy "name" data = true
  ∧ get_truthy "address" data = true.
Proof.
  unfold missing_fields, required. simpl.
  destruct (get_truthy "type" data), (get_truthy "name" data),
    (get_truthy "address" data); simpl; split; try done; intros (? & ? & ?);
    done.
Qed.

Lemma missing_fields_elem k data :
  k ∈ missing_fields data ↔ k ∈ required ∧ get_truthy k data = false.
Proof.
  unfold missing_fields. rewrite list_elem_of_In, filter_In, <- list_elem_of_In.
  by rewrite negb_true_iff.
Qed.

(** ** The shape of stored records *)

Lemma wf_record_shape sid rec :
  wf_record sid rec →
  ∃ ty nm ad hr ph up,
    rec = [("id", JStr sid); ("type", ty); ("name", nm); ("address", ad);
           ("hours", hr); ("phone", ph); ("updatedAt", up)].
Proof.
  intros [Hkeys Hid]. unfold dict_keys, field_names in Hkeys.
  repeat (destruct rec as [|[? ?] rec]; simpl in Hkeys; try discriminate).
  injection Hkeys as -> -> -> -> -> -> ->. simpl in Hid.
  injection Hid as ->. by eexists _, _, _, _, _, _.
Qed.

Lemma wf_record_fresh sid ty nm ad hr ph up :
  wf_record sid
    [("id", JStr sid); ("type", ty); ("name", nm); ("address", ad);
     ("hours", hr); ("phone", ph); ("updatedAt", up)].
Proof. by split. Qed.

Lemma wf_state_get st sid rec :
  wf_state st → dict_get sid (services st) = Some rec → wf_record sid rec.
Proof.
  intros [_ Hall] Hget.
  by apply (dict_get_Forall (λ k v, wf_record k v) sid rec (services st)).
Qed.

Lemma wf_state_set st sid rec :
  wf_state st → wf_record sid rec →
  wf_state {| services := dict_set sid rec (services st);
              ws_clients := ws_clients st |}.
Proof.
  intros [Hnd Hall] Hrec. split; simpl.
  - by apply dict_set_NoDup.
  - by apply (dict_set_Forall (λ k v, wf_record k v)).
Qed.

Lemma patch_key_get data svc a k :
  dict_get k (patch_key data svc a)
  = if String.eqb a k then
      match dict_get k data with
      | Some v => Some v
      | None => dict_get k svc
      end
    else dict_get k svc.
Proof.
  unfold patch_key. destruct (String.eqb_spec a k) as [->|Hne].
  - destruct (dict_get k data); [apply dict_get_set_eq | done].
  - destruct (dict_get a data); [by apply dict_get_set_ne | done].
Qed.

Lemma patch_keys_get ks data svc k :
  dict_get k (List.fold_left (patch_key data) ks svc)
  = if bool_decide (k ∈ ks) then
      match dict_get k data with
      | Some v => Some v
      | None => dict_get k svc
      end
    else dict_get k svc.
Proof.
  revert svc. induction ks as [|a ks IH]; intros svc; simpl; [done|].
  rewrite IH, patch_key_get.
  destruct (String.eqb_spec a k) as [->|Hne].
  - rewrite (bool_decide_eq_true_2 (k ∈ k :: ks)) by apply list_elem_of_here.
    destruct (dict_get k data); by case_bool_decide.
  - case_bool_decide as Hin.
    + by rewrite bool_decide_eq_true_2 by (by apply list_elem_of_further).
    + rewrite bool_decide_eq_false_2; [done|].
      intros [->|?]%elem_of_cons; done.
Qed.

Lemma apply_patch_get data rec k :
  dict_get k (apply_patch data rec)
  = if bool_decide (k ∈ patchable) then
      match dict_get k data with
      | Some v => Some v
      | None => dict_get k rec
      end
    else dict_get k rec.
Proof. apply (patch_keys_get patchable). Qed.

Lemma patch_key_keys data svc a :
  a ∈ dict_keys svc → dict_keys (patch_key data svc a) = dict_keys svc.
Proof.
  intros Hin. unfold patch_key.
  destruct (dict_get a data); [by apply dict_keys_set_old | done].
Qed.

Lemma patch_keys_keys ks data svc :
  ks ⊆ dict_keys svc →
  dict_keys (List.fold_left (patch_key data) ks svc) = dict_keys svc.
Proof.
  revert svc. induction ks as [|a ks IH]; intros svc Hsub; simpl; [done|].
  assert (a ∈ dict_keys svc) as Ha by (apply Hsub, list_elem_of_here).
  rewrite IH; rewrite patch_key_keys; try done.
  intros x Hx. by apply Hsub, list_elem_of_further.
Qed.

Lemma patched_keys now data sid rec :
  wf_record sid rec → dict_keys (patched now data rec) = dict_keys rec.
Proof.
  intros [Hkeys _]. unfold patched, apply_patch.
  assert (dict_keys (List.fold_left (patch_key data) patchable rec)
          = dict_keys rec) as Hk.
  { apply patch_keys_keys. rewrite Hkeys. unfold patchable, field_names.
    intros x Hx. repeat (apply elem_of_cons in Hx as [->|Hx]); try elem_list.
    by apply elem_of_nil in Hx. }
  rewrite dict_keys_set_old; [done|].
  rewrite Hk, Hkeys. unfold field_names. elem_list.
Qed.

(** What [patch_service] leaves under each key of the record. *)
Lemma patched_get now data rec k :
  dict_get k (patched now data rec)
  = if String.eqb "updatedAt" k then Some (JStr now)
    else if bool_decide (k ∈ patchable) then
      match dict_get k data with
      | Some v => Some v
      | None => dict_get k rec
      end
    else dict_get k rec.
Proof. unfold patched. by rewrite dict_get_set, apply_patch_get. Qed.

Lemma patched_wf now data sid rec :
  wf_record sid rec → wf_record sid (patched now data rec).
Proof.
  intros Hwf. split.
  - rewrite (patched_keys now data sid rec Hwf). apply Hwf.
  - rewrite patched_get. simpl. apply Hwf.
Qed.

(** ** The handlers, case by case *)

Lemma create_service_missing rnd now send_ok data st :
  missing_fields data ≠ [] →
  create_service rnd now send_ok data st
  = answer st (missing_response (missing_fields data)).
Proof. unfold create_service. by destruct (missing_fields data). Qed.

Lemma create_service_ok rnd now send_ok data st :
  missing_fields data = [] →
  ∃ ty nm ad,
    dict_get "type" data = Some ty ∧ dict_get "name" data = Some nm
    ∧ dict_get "address" data = Some ad
    ∧ py_truthy ty = true ∧ py_truthy nm = true ∧ py_truthy ad = true
    ∧ create_service rnd now send_ok data st
      = let sid := uuid4 rnd in
        let service := record_of now sid data ty nm ad in
        let sent := broadcast send_ok (created_event service) (ws_clients st) in
        {| after := {| services := dict_set sid service (services st);
                       ws_clients := fst sent |};
           reply_of :=
             Reply {| status := 201;
                      body_of := JsonBody (JObj service);
                      headers := [("Location", "/api/v1/services/" +:+ sid)] |};
           trace := Broadcast (created_event service) :: snd sent |}.
Proof.
  intros Hmiss. pose proof Hmiss as (Hty & Hnm & Had)%missing_fields_nil.
  apply get_truthy_Some in Hty as (ty & Hty & ?).
  apply get_truthy_Some in Hnm as (nm & Hnm & ?).
  apply get_truthy_Some in Had as (ad & Had & ?).
  exists ty, nm, ad. repeat (split; [done|]).
  unfold create_service, item. rewrite Hmiss, Hty, Hnm, Had.
  fold (record_of now (uuid4 rnd) data ty nm ad). cbv zeta.
  by destruct (broadcast _ _ _).
Qed.

Lemma put_service_unknown now sid data st :
  dict_get sid (services st) = None →
  put_service now sid data st = answer st not_found.
Proof. intros Hget. unfold put_service, dict_mem. by rewrite Hget. Qed.

Lemma put_service_missing now sid data st rec :
  dict_get sid (services st) = Some rec → missing_fields data ≠ [] →
  put_service now sid data st
  = answer st (missing_response (missing_fields data)).
Proof.
  intros Hget Hmiss. unfold put_service, dict_mem. rewrite Hget. simpl.
  by destruct (missing_fields data).
Qed.

Lemma put_service_ok now sid data st rec :
  wf_record sid rec →
  dict_get sid (services st) = Some rec → missing_fields data = [] →
  ∃ ty nm ad,
    dict_get "type" data = Some ty ∧ dict_get "name" data = Some nm
    ∧ dict_get "address" data = Some ad
    ∧ py_truthy ty = true ∧ py_truthy nm = true ∧ py_truthy ad = true
    ∧ put_service now sid data st
      = let service := record_of now sid data ty nm ad in
        answer {| services := dict_set sid service (services st);
                  ws_clients := ws_clients st |}
               (json_response 200 (JObj service)).
Proof.
  intros (ty0 & nm0 & ad0 & hr0 & ph0 & up0 & ->)%wf_record_shape Hget Hmiss.
  pose proof Hmiss as (Hty & Hnm & Had)%missing_fields_nil.
  apply get_truthy_Some in Hty as (ty & Hty & ?).
  apply get_truthy_Some in Hnm as (nm & Hnm & ?).
  apply get_truthy_Some in Had as (ad & Had & ?).
  exists ty, nm, ad. repeat (split; [done|]).
  unfold put_service, dict_mem, item. rewrite Hget, Hmiss, Hty, Hnm, Had.
  reflexivity.
Qed.

Lemma patch_service_unknown now sid data st :
  dict_get sid (services st) = None →
  patch_service now sid data st = answer st not_found.
Proof. intros Hget. unfold patch_service. by rewrite Hget. Qed.

Lemma patch_service_found now sid data st rec :
  rec ≠ [] → dict_get sid (services st) = Some rec →
  patch_service now sid data st
  = answer {| services := dict_set sid (patched now data rec) (services st);
              ws_clients := ws_clients st |}
           (json_response 200 (JObj (patched now data rec))).
Proof.
  intros Hne Hget. unfold patch_service. rewrite Hget. by destruct rec.
Qed.

Lemma delete_service_unknown sid st :
  dict_get sid (services st) = None →
  delete_service sid st = answer st not_found.
Proof. intros Hget. unfold delete_service, dict_mem. by rewrite Hget. Qed.

Lemma delete_service_found sid st rec :
  dict_get sid (services st) = Some rec →
  delete_service sid st
  = answer {| services := dict_del sid (services st);
              ws_clients := ws_clients st |}
           {| status := 204; body_of := TextBody ""; headers := [] |}.
Proof. intros Hget. unfold delete_service, dict_mem. by rewrite Hget. Qed.

Lemma wf_record_nonempty sid rec : wf_record sid rec → rec ≠ [].
Proof. by intros [Hkeys _] ->. Qed.

(** ** Every reachable state is well formed *)

Lemma wf_state_services st st' :
  services st' = services st → wf_state st → wf_state st'.
Proof. unfold wf_state. by intros ->. Qed.

Lemma wf_run r st : wf_state st → wf_state (fst (run r st)).
Proof.
  intros Hwf. destruct r as [rnd now send_ok data|t|inm sid|now sid data
                            |now sid data|sid|send_ok h|h]; simpl; try done.
  - destruct (decide (missing_fields data = [])) as [Hmiss|Hmiss].
    + destruct (create_service_ok rnd now send_ok data st Hmiss)
        as (ty & nm & ad & _ & _ & _ & _ & _ & _ & ->). simpl.
      eapply wf_state_services;
        [|apply (wf_state_set st (uuid4 rnd)); [done | apply wf_record_fresh]].
      done.
    + by rewrite create_service_missing.
  - destruct (dict_get sid (services st)) as [rec|] eqn:Hget.
    + pose proof (wf_state_get _ _ _ Hwf Hget) as Hrec.
      destruct (decide (missing_fields data = [])) as [Hmiss|Hmiss].
      * destruct (put_service_ok now sid data st rec Hrec Hget Hmiss)
          as (ty & nm & ad & _ & _ & _ & _ & _ & _ & ->). simpl.
        apply wf_state_set; [done | apply wf_record_fresh].
      * by rewrite (put_service_missing now sid data st rec).
    + by rewrite put_service_unknown.
  - destruct (dict_get sid (services st)) as [rec|] eqn:Hget.
    + pose proof (wf_state_get _ _ _ Hwf Hget) as Hrec.
      rewrite (patch_service_found now sid data st rec);
        [|by eapply wf_record_nonempty|done]. simpl.
      apply wf_state_set; [done | by apply patched_wf].
    + by rewrite patch_service_unknown.
  - destruct (dict_get sid (services st)) as [rec|] eqn:Hget.
    + rewrite (delete_service_found sid st rec Hget). simpl.
      destruct Hwf as [Hnd Hall]. split; simpl.
      * by apply dict_del_NoDup.
      * by apply (dict_del_Forall (λ k v, wf_record k v)).
    + by rewrite delete_service_unknown.
Qed.

Lemma reachable_wf st : reachable st → wf_state st.
Proof.
  induction 1 as [|r st _ IH].
  - split; simpl; [apply NoDup_nil_2 | apply Forall_nil_2].
  - by apply wf_run.
Qed.

Lemma reachable_get st sid rec :
  reachable st → dict_get sid (services st) = Some rec → wf_record sid rec.
Proof. intros Hr. apply wf_state_get. by apply reachable_wf. Qed.

(** ** Sorting the items of a dictionary *)

Lemma leb_lt_or_eq a b :
  String.leb a b = true ↔ a = b ∨ String_as_OT.lt a b.
Proof.
  unfold String.leb. rewrite <- String_as_OT.cmp_lt, <- String_as_OT.cmp_eq.
  unfold String_as_OT.cmp. destruct (String.compare a b); split; auto;
    try done; intros [?|?]; done.
Qed.

Lemma leb_refl a : String.leb a a = true.
Proof. apply leb_lt_or_eq. by left. Qed.

Lemma leb_trans a b c :
  String.leb a b = true → String.leb b c = true → String.leb a c = true.
Proof.
  rewrite !leb_lt_or_eq. intros [->|Hab] [->|Hbc]; auto.
  right. by eapply String_as_OT.lt_trans.
Qed.

Lemma leb_flip a b : String.leb a b = false → String.leb b a = true.
Proof. destruct (String.leb_total a b) as [->|]; done. Qed.

Section SortFacts.
Context {V : Type}.
Implicit Types (kv : string * V) (l : pydict V).

Lemma insert_item_perm kv l : insert_item kv l ≡ₚ kv :: l.
Proof.
  induction l as [|kv' l IH]; simpl; [done|].
  destruct (String.leb (fst kv) (fst kv')); [done|].
  rewrite IH. apply perm_swap.
Qed.

Lemma sort_items_perm l : sort_items l ≡ₚ l.
Proof.
  induction l as [|kv l IH]; simpl; [done|].
  by rewrite insert_item_perm, IH.
Qed.

Lemma insert_item_sorted kv l :
  StronglySorted key_le l → StronglySorted key_le (insert_item kv l).
Proof.
  induction 1 as [|kv' l Hl IH Hall]; simpl.
  - repeat constructor.
  - destruct (String.leb (fst kv) (fst kv')) eqn:Hle.
    + constructor; [by constructor|]. constructor; [done|].
      eapply Forall_impl; [exact Hall|]. intros x Hx.
      by eapply leb_trans.
    + constructor; [done|].
      rewrite insert_item_perm. constructor; [|done].
      by apply leb_flip.
Qed.

(** The items come out in the order of their keys. *)
Lemma sort_items_sorted l : StronglySorted key_le (sort_items l).
Proof.
  induction l as [|kv l IH]; simpl; [constructor|].
  by apply insert_item_sorted.
Qed.

Lemma sorted_items_unique l1 l2 :
  StronglySorted key_le l1 → StronglySorted key_le l2 →
  l1 ≡ₚ l2 → NoDup (dict_keys l1) → l1 = l2.
Proof.
  intros Hs1. revert l2.
  induction Hs1 as [|x l1 Hs1 IH Hall1]; intros l2 Hs2 Hperm Hnd.
  - by apply Permutation_nil in Hperm.
  - destruct Hs2 as [|y l2 Hs2 Hall2].
    { symmetry in Hperm. by apply Permutation_nil_cons in Hperm. }
    simpl in Hnd. apply NoDup_cons in Hnd as [Hx Hnd].
    assert (x = y) as <-.
    { assert (x ∈ y :: l2) as Hxy by (rewrite <- Hperm; left).
      assert (y ∈ x :: l1) as Hyx by (rewrite Hperm; left).
      apply elem_of_cons in Hxy as [|Hxy]; [done|].
      apply elem_of_cons in Hyx as [|Hyx]; [done|].
      rewrite Forall_forall in Hall1, Hall2.
      exfalso. apply Hx.
      rewrite (String.leb_antisym (fst x) (fst y)).
      - unfold dict_keys. apply list_elem_of_In, in_map, list_elem_of_In, Hyx.
      - by apply Hall1.
      - by apply Hall2. }
    f_equal. apply IH; [done| |done].
    by apply (inj (x ::.)).
Qed.

(** The sorted items do not depend on the insertion order. *)
Lemma sort_items_reorder l1 l2 :
  l1 ≡ₚ l2 → NoDup (dict_keys l1) → sort_items l1 = sort_items l2.
Proof.
  intros Hperm Hnd. apply sorted_items_unique.
  - apply sort_items_sorted.
  - apply sort_items_sorted.
  - by rewrite !sort_items_perm.
  - unfold dict_keys. by rewrite sort_items_perm.
Qed.

End SortFacts.

(** ** The fingerprint *)

Lemma hexdigest_length msg : String.length (MD5.hexdigest msg) = 32%nat.
Proof.
  unfold MD5.hexdigest, MD5.digest.
  destruct (fold_left MD5.block _ MD5.init) as [[[a b] c] d]. reflexivity.
Qed.

Lemma compute_etag_length obj : String.length (compute_etag obj) = 32%nat.
Proof. apply hexdigest_length. Qed.

Lemma compute_etag_nonempty obj : compute_etag obj ≠ "".
Proof.
  intros Heq. pose proof (compute_etag_length obj) as Hlen.
  by rewrite Heq in Hlen.
Qed.

(** The serialisation with [sort_keys=True] does not depend on the order
    in which the keys of the record were inserted. *)
Lemma dumps_sorted_reorder isep ksep obj obj' :
  obj ≡ₚ obj' → NoDup (dict_keys obj) →
  dumps true isep ksep (JObj obj') = dumps true isep ksep (JObj obj).
Proof.
  intros Hperm Hnd. simpl. do 4 f_equal. symmetry.
  apply sort_items_reorder.
  - by apply Permutation_map.
  - unfold dict_keys in *. rewrite map_map.
    erewrite map_ext; [exact Hnd|]. by intros [k x].
Qed.

Lemma compute_etag_reorder obj obj' :
  obj ≡ₚ obj' → NoDup (dict_keys obj) → compute_etag obj' = compute_etag obj.
Proof.
  intros Hperm Hnd. unfold compute_etag.
  by rewrite (dumps_sorted_reorder "," ":" obj obj').
Qed.

Lemma inm_matches_true inm etag :
  etag ≠ "" → inm_matches inm etag = true ↔ inm = Some etag.
Proof.
  intros Hne. destruct inm as [x|]; simpl; [|done].
  rewrite andb_true_iff, negb_true_iff, String.eqb_neq, String.eqb_eq.
  split; [by intros [_ ->] | intros [= ->]; done].
Qed.

Lemma get_service_found inm sid st rec :
  rec ≠ [] → dict_get sid (services st) = Some rec →
  get_service inm sid st
  = let etag := compute_etag rec in
    let hs := [("ETag", etag); ("Cache-Control", cache_control)] in
    if inm_matches inm etag then
      Reply {| status := 304; body_of := TextBody ""; headers := hs |}
    else
      Reply {| status := 200; body_of := JsonBody (JObj rec); headers := hs |}.
Proof. intros Hne Hget. unfold get_service. rewrite Hget. by destruct rec. Qed.

Lemma get_service_unknown inm sid st :
  dict_get sid (services st) = None → get_service inm sid st = Reply not_found.
Proof. intros Hget. unfold get_service. by rewrite Hget. Qed.

Lemma wf_record_NoDup sid rec : wf_record sid rec → NoDup (dict_keys rec).
Proof.
  intros [-> _]. unfold field_names.
  apply (bool_decide_unpack _). by vm_compute.
Qed.

(** ** The generated identifier *)

Lemma uuid4_length rnd : String.length (uuid4 rnd) = 36%nat.
Proof. reflexivity. Qed.

Lemma uuid4_nonempty rnd : uuid4 rnd ≠ "".
Proof.
  intros Heq. pose proof (uuid4_length rnd) as Hlen. by rewrite Heq in Hlen.
Qed.

(** ** The fan-out *)

Lemma deliver_spec send_ok msg snapshot dead :
  deliver send_ok msg snapshot dead
  = ((dead ++ List.filter (λ h, negb (send_ok h msg)) snapshot)%list,
     List.map (λ h, Send h msg) snapshot).
Proof.
  revert dead. induction snapshot as [|h rest IH]; intros dead; simpl.
  - by rewrite app_nil_r.
  - rewrite IH. destruct (send_ok h msg); simpl; [done|].
    by rewrite <- app_assoc.
Qed.

Lemma discard_all_elem dead clients h :
  h ∈ discard_all dead clients ↔ h ∈ clients ∧ h ∉ dead.
Proof.
  unfold discard_all. revert clients.
  induction dead as [|d dead IH]; intros clients; simpl.
  - split; [intros ?; split; [done | apply not_elem_of_nil] | by intros [? _]].
  - rewrite IH, not_elem_of_cons, elem_of_difference, elem_of_singleton.
    tauto.
Qed.

Lemma broadcast_log send_ok event clients :
  snd (broadcast send_ok event clients)
  = List.map (λ h, Send h (dumps_default event)) (elements clients).
Proof. unfold broadcast. by rewrite deliver_spec. Qed.

Lemma broadcast_clients send_ok event clients h :
  h ∈ fst (broadcast send_ok event clients)
  ↔ h ∈ clients ∧ send_ok h (dumps_default event) = true.
Proof.
  unfold broadcast. rewrite deliver_spec. simpl.
  rewrite discard_all_elem, list_elem_of_In, filter_In, <- list_elem_of_In.
  rewrite elem_of_elements, negb_true_iff.
  destruct (send_ok h (dumps_default event)).
  - split; [by intros [? _] | intros [? _]]. split; [done|]. by intros [_ ?].
  - split; [intros [? Hn]; destruct Hn; by split | by intros [_ ?]].
Qed.

Lemma elem_of_send_log h m msg (snapshot : list nat) :
  Send h m ∈ List.map (λ h', Send h' msg) snapshot ↔ m = msg ∧ h ∈ snapshot.
Proof.
  rewrite list_elem_of_In, in_map_iff. split.
  - intros (h' & [= -> ->] & Hin). by rewrite list_elem_of_In.
  - intros [-> Hin]. exists h. by rewrite <- list_elem_of_In.
Qed.

Lemma broadcast_no_event send_ok event clients e :
  Broadcast e ∉ snd (broadcast send_ok event clients).
Proof.
  rewrite broadcast_log, list_elem_of_In, in_map_iff. by intros (? & ? & _).
Qed.

(** ** The sample run *)

Lemma sample_reachable : reachable sample_state.
Proof. apply reachable_step, reachable_init. Qed.

Lemma sample_stored :
  dict_get sample_sid (services sample_state) = Some sample_record.
Proof. by vm_compute. Qed.

Example sample_sid_value : sample_sid = "00000000-0000-4000-8000-000000000007".
Proof. by vm_compute. Qed.

(** The value [hashlib] and [json] give for the same record. *)
Example sample_etag :
  compute_etag sample_record = "f6bad361a7ae30a125b8e653f1d2e648".
Proof. by vm_compute. Qed.

Example md5_empty : MD5.hexdigest [] = "d41d8cd98f00b204e9800998ecf8427e".
Proof. by vm_compute. Qed.

Example md5_abc :
  MD5.hexdigest [97; 98; 99] = "900150983cd24fb0d6963f7d28e17f72".
Proof. by vm_compute. Qed.

(** The two-record scenario of the specification: after creating one
    clinic and one shelter, listing with [type=clinic] returns the clinic
    record alone, on both surfaces. *)
Example list_clinic_only :
  let shelter :=
    [("type", JStr "shelter"); ("name", JStr "Safe Harbor");
     ("address", JStr "2 Oak Ave"); ("phone", JStr "555-0101")] in
  let st :=
    fst (run (Create 9 "2024-01-03T00:00:00+00:00" (λ _ _, true) shelter)
           sample_state) in
  List.length (services st) = 2%nat
  ∧ resolve_services (Some "clinic") st = [sample_record]
  ∧ list_services (Some "clinic") st
    = Reply (json_response 200 (JArr [JObj sample_record])).
Proof. by vm_compute. Qed.

(** ** No handler raises *)

Lemma put_service_replies now sid data st :
  ∃ r, reply_of (put_service now sid data st) = Reply r.
Proof.
  destruct (dict_get sid (services st)) as [rec|] eqn:Hget.
  - destruct (decide (missing_fields data = [])) as [Hmiss|Hmiss].
    + pose proof Hmiss as (Hty & Hnm & Had)%missing_fields_nil.
      apply get_truthy_Some in Hty as (ty & Hty & _).
      apply get_truthy_Some in Hnm as (nm & Hnm & _).
      apply get_truthy_Some in Had as (ad & Had & _).
      unfold put_service, dict_mem, item.
      rewrite Hget, Hmiss, Hty, Hnm, Had. simpl. eauto.
    + rewrite (put_service_missing now sid data st rec) by done.
      simpl. eauto.
  - rewrite put_service_unknown by done. simpl. eauto.
Qed.

Lemma create_service_replies rnd now send_ok data st :
  ∃ r, reply_of (create_service rnd now send_ok data st) = Reply r.
Proof.
  destruct (decide (missing_fields data = [])) as [Hmiss|Hmiss].
  - destruct (create_service_ok rnd now send_ok data st Hmiss)
      as (ty & nm & ad & _ & _ & _ & _ & _ & _ & ->). simpl. eauto.
  - rewrite create_service_missing by done. simpl. eauto.
Qed.

(** * The claims of the specification *)

(** C1 — conditional single-record read.  For every record stored in a
    reachable registry, the fingerprint is the MD5 hex digest of the
    record serialised with sorted keys and the separators [,] and [:]; it
    has 32 characters and is the same for every insertion order of the
    record's keys.  A request whose [If-None-Match] value is that
    fingerprint is answered 304 with an empty body, the [ETag] and
    [Cache-Control: private, max-age=0, must-revalidate]; a request with
    any other value, or with none, is answered 200 with the full record
    and the same two headers. *)
Theorem conditional_read st sid rec inm :
  reachable st → dict_get sid (services st) = Some rec →
  let etag := compute_etag rec in
  let hs :=
    [("ETag", etag); ("Cache-Control", "private, max-age=0, must-revalidate")]
  in
  etag = MD5.hexdigest (encode_utf8 (dumps true "," ":" (JObj rec)))
  ∧ String.length etag = 32%nat
  ∧ (∀ rec', rec ≡ₚ rec' → compute_etag rec' = etag)
  ∧ (inm = Some etag →
     get_service inm sid st
     = Reply {| status := 304; body_of := TextBody ""; headers := hs |})
  ∧ (inm ≠ Some etag →
     get_service inm sid st
     = Reply {| status := 200; body_of := JsonBody (JObj rec);
                headers := hs |}).
Proof.
  intros Hreach Hget etag hs.
  pose proof (reachable_get st sid rec Hreach Hget) as Hwf.
  pose proof (wf_record_nonempty sid rec Hwf) as Hne.
  pose proof (inm_matches_true inm etag (compute_etag_nonempty rec)) as Hinm.
  split; [done|]. split; [apply compute_etag_length|].
  split; [|split].
  - intros rec' Hperm. apply compute_etag_reorder; [done|].
    by eapply wf_record_NoDup.
  - intros Heq. rewrite (get_service_found inm sid st rec Hne Hget). cbv zeta.
    fold etag. by apply Hinm in Heq as ->.
  - intros Hneq. rewrite (get_service_found inm sid st rec Hne Hget). cbv zeta.
    fold etag. rewrite (proj1 (not_true_iff_false _)); [done|].
    intros E. by apply Hinm in E.
Qed.

Lemma conditional_read_witness :
  reachable sample_state
  ∧ get_service (Some (compute_etag sample_record)) sample_sid sample_state
    = Reply {| status := 304; body_of := TextBody "";
               headers :=
                 [("ETag", compute_etag sample_record);
                  ("Cache-Control", "private, max-age=0, must-revalidate")] |}.
Proof.
  split; [exact sample_reachable|].
  apply (conditional_read sample_state sample_sid sample_record
           (Some (compute_etag sample_record)) sample_reachable sample_stored).
  reflexivity.
Defined.

(** C2 — patch and the required fields.  The code does not keep the
    required fields non-empty: [patch_service] stores the value the input
    supplies for a key without looking at it.  The sample registry holds a
    record whose [type], [name] and [address] are non-empty; the patch
    whose body gives [name] the empty string is answered 200 and leaves
    the empty string under [name], while [put_service] and
    [create_service] answer 400, naming [name], to a body with that
    value. *)
Lemma patch_empties_required_field :
  let body := [("name", JStr "")] in
  let full :=
    [("type", JStr "clinic"); ("name", JStr ""); ("address", JStr "1 Main St")]
  in
  let o := patch_service "2024-01-02T00:00:00+00:00" sample_sid body
             sample_state in
  reachable sample_state
  ∧ dict_get sample_sid (services sample_state) = Some sample_record
  ∧ get_truthy "type" sample_record = true
  ∧ get_truthy "name" sample_record = true
  ∧ get_truthy "address" sample_record = true
  ∧ (∃ rec',
       dict_get sample_sid (services (after o)) = Some rec'
       ∧ reply_of o = Reply (json_response 200 (JObj rec'))
       ∧ dict_get "name" rec' = Some (JStr "")
       ∧ get_truthy "name" rec' = false)
  ∧ put_service "2024-01-02T00:00:00+00:00" sample_sid full sample_state
    = answer sample_state (missing_response ["name"])
  ∧ create_service 8 "2024-01-02T00:00:00+00:00" (λ _ _, true) full
      sample_state
    = answer sample_state (missing_response ["name"]).
Proof.
  cbv zeta.
  split; [exact sample_reachable|]. split; [exact sample_stored|].
  do 3 (split; [reflexivity|]).
  split.
  { eexists. split; [by vm_compute|]. split; [by vm_compute|]. by split. }
  split.
  - by rewrite (put_service_missing _ _ _ _ sample_record sample_stored).
  - by rewrite create_service_missing.
Qed.

(** X3 — what a patch does keep.  For every record stored in a reachable
    registry and every partial input, the patched record still has the
    keys [type], [name] and [address]; the value of each is the supplied
    one when the input has the key and the stored one otherwise, so a
    required field stays non-empty when the input supplies no empty value
    for it. *)
Theorem patch_keeps_required_keys st sid rec data now :
  reachable st → dict_get sid (services st) = Some rec →
  ∃ rec',
    dict_get sid (services (after (patch_service now sid data st))) = Some rec'
    ∧ ∀ k, k ∈ required →
        dict_mem k rec' = true
        ∧ dict_get k rec'
          = match dict_get k data with
            | Some v => Some v
            | None => dict_get k rec
            end
        ∧ get_truthy k rec'
          = match dict_get k data with
            | Some v => py_truthy v
            | None => get_truthy k rec
            end.
Proof.
  intros Hreach Hget.
  pose proof (reachable_get st sid rec Hreach Hget) as Hwf.
  exists (patched now data rec).
  rewrite (patch_service_found now sid data st rec);
    [|by eapply wf_record_nonempty|done].
  simpl. split; [apply dict_get_set_eq|].
  intros k Hk.
  assert (dict_get k (patched now data rec)
          = match dict_get k data with
            | Some v => Some v
            | None => dict_get k rec
            end) as Hval.
  { rewrite patched_get. unfold required in Hk.
    repeat (apply elem_of_cons in Hk as [->|Hk]); try done.
    by apply elem_of_nil in Hk. }
  split; [|split; [done|]].
  - apply dict_mem_keys. rewrite (patched_keys now data sid rec Hwf).
    destruct Hwf as [-> _]. unfold required in Hk.
    repeat (apply elem_of_cons in Hk as [->|Hk]); try (unfold field_names; elem_list).
    by apply elem_of_nil in Hk.
  - unfold get_truthy at 1. rewrite Hval.
    by destruct (dict_get k data).
Qed.

Lemma patch_keeps_required_keys_witness :
  reachable sample_state
  ∧ ∃ rec',
      dict_get sample_sid
        (services (after (patch_service sample_now sample_sid
                            [("hours", JStr "9-5")] sample_state)))
      = Some rec'
      ∧ ∀ k, k ∈ required →
          dict_mem k rec' = true
          ∧ dict_get k rec'
            = match dict_get k [("hours", JStr "9-5")] with
              | Some v => Some v
              | None => dict_get k sample_record
              end
          ∧ get_truthy k rec'
            = match dict_get k [("hours", JStr "9-5")] with
              | Some v => py_truthy v
              | None => get_truthy k sample_record
              end.
Proof.
  split; [exact sample_reachable|].
  exact (patch_keeps_required_keys sample_state sample_sid sample_record
           [("hours", JStr "9-5")] sample_now sample_reachable sample_stored).
Defined.

Lemma missing_fields_sublist data : sublist (missing_fields data) required.
Proof.
  unfold missing_fields, required. simpl.
  destruct (get_truthy "type" data), (get_truthy "name" data),
    (get_truthy "address" data); simpl;
    repeat first [apply sublist_nil | apply sublist_skip | apply sublist_cons].
Qed.

(** C3 — create validation.  The fields listed by a failed create are the
    required fields that the input lacks or gives an empty (false) value,
    in the order [type], [name], [address]; when there is one, create
    answers 400 with that list and changes nothing (with only [name]
    missing the list is [["name"]]).  When there is none, create answers
    201 with the stored record: its [id] is the generated identifier,
    which is not empty, and [hours] and [phone] are the empty string when
    the input omits them. *)
Theorem create_validation rnd now send_ok data st :
  (∀ k, k ∈ missing_fields data ↔ k ∈ required ∧ get_truthy k data = false)
  ∧ sublist (missing_fields data) required
  ∧ (∀ k s, dict_get k data = Some (JStr s) →
       get_truthy k data = false ↔ s = "")
  ∧ (∀ k, dict_get k data = None → get_truthy k data = false)
  ∧ (missing_fields data ≠ [] →
     create_service rnd now send_ok data st
     = {| after := st;
          reply_of :=
            Reply {| status := 400;
                     body_of :=
                       JsonBody
                         (JObj [("error", JStr "missing_fields");
                                ("fields",
                                 JArr (List.map JStr (missing_fields data)))]);
                     headers := [] |};
          trace := [] |})
  ∧ (get_truthy "type" data = true → get_truthy "name" data = false →
     get_truthy "address" data = true → missing_fields data = ["name"])
  ∧ (missing_fields data = [] →
     ∃ ty nm ad,
       dict_get "type" data = Some ty ∧ dict_get "name" data = Some nm
       ∧ dict_get "address" data = Some ad
       ∧ let sid := uuid4 rnd in
         let service :=
           [("id", JStr sid); ("type", ty); ("name", nm); ("address", ad);
            ("hours", get_or_empty "hours" data);
            ("phone", get_or_empty "phone" data); ("updatedAt", JStr now)] in
         let o := create_service rnd now send_ok data st in
         reply_of o
         = Reply {| status := 201;
                    body_of := JsonBody (JObj service);
                    headers := [("Location", "/api/v1/services/" +:+ sid)] |}
         ∧ services (after o) = dict_set sid service (services st)
         ∧ dict_get sid (services (after o)) = Some service
         ∧ sid ≠ "" ∧ String.length sid = 36%nat
         ∧ (dict_get "hours" data = None →
            dict_get "hours" service = Some (JStr ""))
         ∧ (dict_get "phone" data = None →
            dict_get "phone" service = Some (JStr ""))).
Proof.
  split; [intros k; apply missing_fields_elem|].
  split; [apply missing_fields_sublist|].
  split.
  { intros k s Hk. unfold get_truthy. rewrite Hk. simpl.
    rewrite negb_false_iff. apply String.eqb_eq. }
  split.
  { intros k Hk. unfold get_truthy. by rewrite Hk. }
  split; [apply create_service_missing|].
  split.
  { intros Hty Hnm Had. unfold missing_fields, required. simpl.
    by rewrite Hty, Hnm, Had. }
  intros Hmiss.
  destruct (create_service_ok rnd now send_ok data st Hmiss)
    as (ty & nm & ad & Hty & Hnm & Had & _ & _ & _ & Heq).
  exists ty, nm, ad. repeat (split; [done|]). cbv zeta in *.
  rewrite Heq. unfold record_of.
  cbn [after reply_of trace services ws_clients fst snd].
  split; [done|]. split; [done|]. split; [apply dict_get_set_eq|].
  split; [apply uuid4_nonempty|]. split; [apply uuid4_length|].
  unfold get_or_empty. split; by intros ->.
Qed.

(** C4 — replace.  In a reachable registry, [put_service] on an unknown id
    answers 404 and leaves the state as it is, whatever the body; on a
    stored id with a body that fails the validation of create it answers
    400 with the missing fields and changes nothing; on a stored id with a
    valid body the record becomes the id, the supplied [type], [name] and
    [address], the supplied [hours] and [phone] or the empty string for
    an omitted one, and [updatedAt] set to the clock reading of the
    request, and a get that follows returns exactly that record. *)
Theorem replace_semantics st sid data now :
  reachable st →
  (dict_get sid (services st) = None →
   put_service now sid data st
   = {| after := st; reply_of := Reply not_found; trace := [] |})
  ∧ ∀ rec, dict_get sid (services st) = Some rec →
      (missing_fields data ≠ [] →
       put_service now sid data st
       = {| after := st;
            reply_of := Reply (missing_response (missing_fields data));
            trace := [] |})
      ∧ (missing_fields data = [] →
         ∃ ty nm ad,
           dict_get "type" data = Some ty ∧ dict_get "name" data = Some nm
           ∧ dict_get "address" data = Some ad
           ∧ let rec' :=
               [("id", JStr sid); ("type", ty); ("name", nm); ("address", ad);
                ("hours",
                 match dict_get "hours" data with
                 | Some v => v
                 | None => JStr ""
                 end);
                ("phone",
                 match dict_get "phone" data with
                 | Some v => v
                 | None => JStr ""
                 end);
                ("updatedAt", JStr now)] in
             let o := put_service now sid data st in
             reply_of o
             = Reply {| status := 200; body_of := JsonBody (JObj rec');
                        headers := [] |}
             ∧ trace o = []
             ∧ services (after o) = dict_set sid rec' (services st)
             ∧ ws_clients (after o) = ws_clients st
             ∧ dict_get sid (services (after o)) = Some rec'
             ∧ dict_get "type" rec' = dict_get "type" data
             ∧ dict_get "name" rec' = dict_get "name" data
             ∧ dict_get "address" rec' = dict_get "address" data
             ∧ (∀ v, dict_get "hours" data = Some v →
                  dict_get "hours" rec' = Some v)
             ∧ (dict_get "hours" data = None →
                dict_get "hours" rec' = Some (JStr ""))
             ∧ (∀ v, dict_get "phone" data = Some v →
                  dict_get "phone" rec' = Some v)
             ∧ (dict_get "phone" data = None →
                dict_get "phone" rec' = Some (JStr ""))
             ∧ dict_get "updatedAt" rec' = Some (JStr now)
             ∧ dict_get "id" rec' = Some (JStr sid)
             ∧ get_service None sid (after o)
               = Reply {| status := 200; body_of := JsonBody (JObj rec');
                          headers :=
                            [("ETag", compute_etag rec');
                             ("Cache-Control", cache_control)] |}).
Proof.
  intros Hreach. split; [apply put_service_unknown|].
  intros rec Hget.
  split; [intros Hm; by apply (put_service_missing now sid data st rec)|].
  intros Hmiss.
  pose proof (reachable_get st sid rec Hreach Hget) as Hwf.
  destruct (put_service_ok now sid data st rec Hwf Hget Hmiss)
    as (ty & nm & ad & Hty & Hnm & Had & _ & _ & _ & Heq).
  exists ty, nm, ad. repeat (split; [done|]). cbv zeta in *.
  rewrite Heq. unfold record_of, answer, json_response, get_or_empty.
  cbn [after reply_of trace services ws_clients].
  do 4 (split; [done|]). split; [apply dict_get_set_eq|].
  do 3 (split; [done|]).
  split; [by intros v ->|]. split; [by intros ->|].
  split; [by intros v ->|]. split; [by intros ->|].
  do 2 (split; [done|]).
  erewrite get_service_found; [done|done|].
  cbn [services]. apply dict_get_set_eq.
Qed.

Lemma replace_semantics_witness :
  let data :=
    [("type", JStr "clinic"); ("name", JStr "Hope Clinic East");
     ("address", JStr "3 Elm Rd"); ("hours", JStr "9-5")] in
  let o := put_service "2024-01-02T00:00:00+00:00" sample_sid data
             sample_state in
  reachable sample_state
  ∧ ∃ rec',
      dict_get "name" rec' = Some (JStr "Hope Clinic East")
      ∧ dict_get "hours" rec' = Some (JStr "9-5")
      ∧ dict_get "phone" rec' = Some (JStr "")
      ∧ get_service None sample_sid (after o)
        = Reply {| status := 200; body_of := JsonBody (JObj rec');
                   headers :=
                     [("ETag", compute_etag rec');
                      ("Cache-Control", cache_control)] |}.
Proof.
  cbv zeta. split; [exact sample_reachable|].
  destruct (replace_semantics sample_state sample_sid
              [("type", JStr "clinic"); ("name", JStr "Hope Clinic East");
               ("address", JStr "3 Elm Rd"); ("hours", JStr "9-5")]
              "2024-01-02T00:00:00+00:00" sample_reachable)
    as [_ Hstored].
  destruct (Hstored sample_record sample_stored) as [_ Hvalid].
  destruct (Hvalid eq_refl)
    as (ty & nm & ad & Hty & Hnm & Had & _ & _ & _ & _ & _ & _ & Hname & _
        & Hhours & _ & _ & Hphone & _ & _ & Hget).
  eexists. split; [exact Hname|]. split; [by apply Hhours|].
  split; [by apply Hphone | exact Hget].
Defined.

(** C5 — patch frame.  In a reachable registry, a patch of a stored record
    answers 200 with the patched record, in which [updatedAt] is the clock
    reading of the request, each of [type], [name], [address], [hours],
    [phone] that the input has is the input's value, and every other key
    has the value it had; the keys of the record, the other records, the
    order of the registry and the subscribers are unchanged and nothing is
    sent.  With the input [{"hours": v}] only [hours] and [updatedAt]
    change. *)
Theorem patch_frame st sid rec data now :
  reachable st → dict_get sid (services st) = Some rec →
  let o := patch_service now sid data st in
  ∃ rec',
    reply_of o
    = Reply {| status := 200; body_of := JsonBody (JObj rec'); headers := [] |}
    ∧ services (after o) = dict_set sid rec' (services st)
    ∧ dict_get sid (services (after o)) = Some rec'
    ∧ dict_keys rec' = dict_keys rec
    ∧ (∀ k,
         dict_get k rec'
         = if String.eqb "updatedAt" k then Some (JStr now)
           else if bool_decide
                     (k ∈ ["type"; "name"; "address"; "hours"; "phone"]) then
             match dict_get k data with
             | Some v => Some v
             | None => dict_get k rec
             end
           else dict_get k rec)
    ∧ (∀ v, dict_get "type" data = Some v → dict_get "type" rec' = Some v)
    ∧ (∀ v, dict_get "name" data = Some v → dict_get "name" rec' = Some v)
    ∧ (∀ v, dict_get "address" data = Some v →
         dict_get "address" rec' = Some v)
    ∧ (∀ v, dict_get "hours" data = Some v → dict_get "hours" rec' = Some v)
    ∧ (∀ v, dict_get "phone" data = Some v → dict_get "phone" rec' = Some v)
    ∧ (∀ k, k ≠ "updatedAt" → dict_get k data = None →
         dict_get k rec' = dict_get k rec)
    ∧ dict_get "id" rec' = dict_get "id" rec
    ∧ dict_get "updatedAt" rec' = Some (JStr now)
    ∧ (∀ sid', sid' ≠ sid →
         dict_get sid' (services (after o)) = dict_get sid' (services st))
    ∧ dict_keys (services (after o)) = dict_keys (services st)
    ∧ ws_clients (after o) = ws_clients st
    ∧ trace o = []
    ∧ (∀ v, data = [("hours", v)] →
         dict_get "hours" rec' = Some v
         ∧ ∀ k, k ≠ "hours" → k ≠ "updatedAt" →
             dict_get k rec' = dict_get k rec).
Proof.
  intros Hreach Hget o.
  pose proof (reachable_get st sid rec Hreach Hget) as Hwf.
  exists (patched now data rec). subst o.
  rewrite (patch_service_found now sid data st rec);
    [|by eapply wf_record_nonempty|done].
  unfold answer, json_response. cbn [after reply_of trace services ws_clients].
  split; [done|]. split; [done|]. split; [apply dict_get_set_eq|].
  split; [by apply (patched_keys now data sid rec)|].
  split; [intros k; exact (patched_get now data rec k)|].
  split; [intros v Hv; rewrite patched_get; simpl; by rewrite Hv|].
  split; [intros v Hv; rewrite patched_get; simpl; by rewrite Hv|].
  split; [intros v Hv; rewrite patched_get; simpl; by rewrite Hv|].
  split; [intros v Hv; rewrite patched_get; simpl; by rewrite Hv|].
  split; [intros v Hv; rewrite patched_get; simpl; by rewrite Hv|].
  split.
  { intros k Hk Hnone. rewrite patched_get, Hnone.
    assert (String.eqb "updatedAt" k = false) as ->.
    { apply String.eqb_neq. congruence. }
    by destruct (bool_decide _). }
  split; [by rewrite patched_get|]. split; [by rewrite patched_get|].
  split; [intros sid' Hne; by apply dict_get_set_ne|].
  split; [apply dict_keys_set_old; by eapply dict_get_Some_keys|].
  split; [done|]. split; [done|].
  intros v ->. split; [by rewrite patched_get|].
  intros k Hk1 Hk2. rewrite patched_get.
  assert (String.eqb "updatedAt" k = false) as ->.
  { apply String.eqb_neq. congruence. }
  rewrite dict_get_single_ne by congruence.
  by destruct (bool_decide _).
Qed.

Lemma patch_frame_witness :
  let data := [("name", JStr "Hope Clinic East"); ("phone", JStr "555-0100")]
  in
  reachable sample_state
  ∧ ∃ rec',
      dict_get sample_sid
        (services (after (patch_service "2024-01-02T00:00:00+00:00" sample_sid
                            data sample_state)))
      = Some rec'
      ∧ dict_get "name" rec' = Some (JStr "Hope Clinic East")
      ∧ dict_get "phone" rec' = Some (JStr "555-0100")
      ∧ dict_get "address" rec' = dict_get "address" sample_record
      ∧ dict_get "updatedAt" rec' = Some (JStr "2024-01-02T00:00:00+00:00").
Proof.
  cbv zeta. split; [exact sample_reachable|].
  destruct (patch_frame sample_state sample_sid sample_record
              [("name", JStr "Hope Clinic East"); ("phone", JStr "555-0100")]
              "2024-01-02T00:00:00+00:00" sample_reachable sample_stored)
    as (rec' & _ & _ & Hget & _ & _ & _ & Hname & _ & _ & Hphone & Hkeep & _
        & Hstamp & _).
  exists rec'. split; [exact Hget|].
  split; [by apply Hname|]. split; [by apply Hphone|].
  split; [by apply Hkeep | exact Hstamp].
Defined.

Lemma filter_keep_all {A} (f : A → bool) (l : list A) :
  (∀ x, x ∈ l → f x = true) → List.filter f l = l.
Proof.
  induction l as [|a l IH]; intros Hall; simpl; [done|].
  rewrite Hall by apply list_elem_of_here. f_equal. apply IH.
  intros x Hx. by apply Hall, list_elem_of_further.
Qed.

(** [del d[k]] removes the entry of [k] and keeps the others in place. *)
Lemma dict_del_filter {V} k (d : pydict V) :
  NoDup (dict_keys d) →
  dict_del k d = List.filter (λ kv, negb (String.eqb (fst kv) k)) d.
Proof.
  induction d as [|[k' v'] d IH]; simpl; [done|].
  rewrite NoDup_cons. intros [Hnin Hnd].
  destruct (String.eqb_spec k' k) as [->|Hne]; simpl.
  - symmetry. apply filter_keep_all. intros [k0 v0] Hin. simpl.
    apply negb_true_iff, String.eqb_neq. intros ->. apply Hnin.
    unfold dict_keys.
    by apply list_elem_of_In, (in_map fst d (k, v0)), list_elem_of_In.
  - f_equal. by apply IH.
Qed.

(** C6 — delete.  In a reachable registry, deleting a stored id answers
    204, removes the entry of that id and nothing else (the other entries
    keep their values and their order, the subscribers are unchanged,
    nothing is sent); the id is then unknown: a get answers 404 and a
    second delete answers 404 and changes nothing.  Deleting an unknown id
    answers 404 and leaves the state as it is. *)
Theorem delete_semantics st sid :
  reachable st →
  (∀ rec, dict_get sid (services st) = Some rec →
     let o := delete_service sid st in
     reply_of o
     = Reply {| status := 204; body_of := TextBody ""; headers := [] |}
     ∧ trace o = []
     ∧ ws_clients (after o) = ws_clients st
     ∧ services (after o)
       = List.filter (λ kv, negb (String.eqb (fst kv) sid)) (services st)
     ∧ dict_get sid (services (after o)) = None
     ∧ (sid ∉ dict_keys (services (after o)))
     ∧ (∀ sid', sid' ≠ sid →
          dict_get sid' (services (after o)) = dict_get sid' (services st))
     ∧ (∀ inm, get_service inm sid (after o) = Reply not_found)
     ∧ delete_service sid (after o)
       = {| after := after o; reply_of := Reply not_found; trace := [] |})
  ∧ (dict_get sid (services st) = None →
     delete_service sid st
     = {| after := st; reply_of := Reply not_found; trace := [] |}).
Proof.
  intros Hreach. destruct (reachable_wf st Hreach) as [Hnd _].
  split; [|apply delete_service_unknown].
  intros rec Hget o. subst o. rewrite (delete_service_found sid st rec Hget).
  unfold answer. cbn [after reply_of trace services ws_clients].
  pose proof (dict_get_del_eq sid (services st) Hnd) as Hgone.
  split; [done|]. split; [done|]. split; [done|].
  split; [by apply dict_del_filter|]. split; [done|].
  split; [by apply dict_get_None_keys|].
  split; [intros sid' Hne; by apply dict_get_del_ne|].
  split; [intros inm; by apply get_service_unknown|].
  by apply delete_service_unknown.
Qed.

Lemma delete_semantics_witness :
  reachable sample_state
  ∧ ∀ inm,
      get_service inm sample_sid (after (delete_service sample_sid sample_state))
      = Reply not_found.
Proof.
  split; [exact sample_reachable|].
  destruct (delete_semantics sample_state sample_sid sample_reachable)
    as [Hstored _].
  apply (Hstored sample_record sample_stored).
Defined.

(** C7 — broadcast fault isolation.  [broadcast] sends the serialised
    event once to every handle of a snapshot of [ws_clients], whatever
    the outcome of the other sends; afterwards the registered handles are
    those whose send returned, so a publish that follows sends nothing to
    a handle whose send raised.  The failure does not reach the caller:
    [create_service] gives the reply and the registry it gives when every
    send returns, and never an uncaught exception. *)
Theorem broadcast_fault_isolation send_ok event clients :
  let msg := dumps_default event in
  let out := broadcast send_ok event clients in
  snd out = List.map (λ h, Send h msg) (elements clients)
  ∧ NoDup (snd out)
  ∧ (∀ h, h ∈ clients ↔ Send h msg ∈ snd out)
  ∧ (∀ h, h ∈ fst out ↔ h ∈ clients ∧ send_ok h msg = true)
  ∧ (∀ send_ok' event' h m,
       h ∈ clients → send_ok h msg = false →
       Send h m ∉ snd (broadcast send_ok' event' (fst out)))
  ∧ (∀ send_ok' event' h,
       h ∈ clients → send_ok h msg = true →
       Send h (dumps_default event') ∈ snd (broadcast send_ok' event' (fst out)))
  ∧ (∀ rnd now data st,
       let o := create_service rnd now send_ok data st in
       let o' := create_service rnd now (λ _ _, true) data st in
       reply_of o = reply_of o'
       ∧ services (after o) = services (after o')
       ∧ ∃ r, reply_of o = Reply r).
Proof.
  intros msg out. subst out.
  split; [apply broadcast_log|]. rewrite broadcast_log. fold msg.
  split.
  { apply NoDup_fmap_2; [by intros ?? [= ->] | apply NoDup_elements]. }
  split.
  { intros h. rewrite elem_of_send_log, elem_of_elements. by split; [|intros [_ ?]]. }
  split; [intros h; apply broadcast_clients|].
  split.
  { intros send_ok' event' h m Hin Hfail.
    rewrite broadcast_log, elem_of_send_log, elem_of_elements, broadcast_clients.
    fold msg. intros (_ & _ & Hok). congruence. }
  split.
  { intros send_ok' event' h Hin Hok.
    rewrite broadcast_log, elem_of_send_log, elem_of_elements, broadcast_clients.
    by fold msg. }
  intros rnd now data st o o'. subst o o'.
  destruct (decide (missing_fields data = [])) as [Hmiss|Hmiss].
  - destruct (create_service_ok rnd now send_ok data st Hmiss)
      as (ty & nm & ad & Hty & Hnm & Had & _ & _ & _ & ->).
    destruct (create_service_ok rnd now (λ _ _, true) data st Hmiss)
      as (ty' & nm' & ad' & Hty' & Hnm' & Had' & _ & _ & _ & ->).
    simplify_eq. cbn [after reply_of services]. eauto.
  - rewrite !create_service_missing by done. unfold answer.
    cbn [after reply_of services]. eauto.
Qed.

(** C8 — creation-only event wiring.  A request publishes an event, by a
    call of [broadcast], exactly when it is a create whose body passes the
    validation, and the event is then [serviceCreated] with the record
    just stored; a failed create, and every replace, patch and delete,
    has no effect on the outside at all. *)
Theorem creation_only_events r st :
  (∀ e,
     Broadcast e ∈ snd (run r st)
     ↔ ∃ rnd now send_ok data rec,
         r = Create rnd now send_ok data
         ∧ missing_fields data = []
         ∧ dict_get (uuid4 rnd) (services (fst (run r st))) = Some rec
         ∧ e = JObj [("event", JStr "serviceCreated"); ("service", JObj rec)])
  ∧ (∀ rnd now send_ok data,
       r = Create rnd now send_ok data → missing_fields data = [] →
       ∃ e sends,
         snd (run r st) = Broadcast e :: sends
         ∧ ∀ x, x ∈ sends → ∃ h msg, x = Send h msg)
  ∧ (∀ rnd now send_ok data,
       r = Create rnd now send_ok data → missing_fields data ≠ [] →
       snd (run r st) = [])
  ∧ (∀ now sid data, r = Put now sid data → snd (run r st) = [])
  ∧ (∀ now sid data, r = Patch now sid data → snd (run r st) = [])
  ∧ (∀ sid, r = Delete sid → snd (run r st) = []).
Proof.
  assert (∀ now sid data, trace (put_service now sid data st) = []) as Hput.
  { intros now sid data.
    unfold put_service, item, answer, raise.
    repeat (case_match; try done). }
  assert (∀ now sid data, trace (patch_service now sid data st) = []) as Hpatch.
  { intros now sid data. unfold patch_service, answer.
    repeat (case_match; try done). }
  assert (∀ sid, trace (delete_service sid st) = []) as Hdel.
  { intros sid. unfold delete_service, answer. by case_match. }
  split; [|split; [|split; [|split; [|split]]]].
  - intros e. split.
    + destruct r as [rnd now send_ok data|t|inm sid|now sid data
                    |now sid data|sid|send_ok h|h]; simpl;
        rewrite ?Hput, ?Hpatch, ?Hdel;
        try (by intros ?%elem_of_nil).
      * destruct (decide (missing_fields data = [])) as [Hmiss|Hmiss].
        -- destruct (create_service_ok rnd now send_ok data st Hmiss)
             as (ty & nm & ad & _ & _ & _ & _ & _ & _ & ->).
           cbn [after trace services].
           intros [[= ->]|Hin]%elem_of_cons.
           ++ exists rnd, now, send_ok, data. eexists.
              split; [done|]. split; [done|].
              split; [apply dict_get_set_eq | done].
           ++ by apply broadcast_no_event in Hin.
        -- rewrite create_service_missing by done. by intros ?%elem_of_nil.
      * intros [[=]|?%elem_of_nil]%elem_of_cons. done.
    + intros (rnd & now & send_ok & data & rec & -> & Hmiss & Hget & ->).
      simpl in *.
      destruct (create_service_ok rnd now send_ok data st Hmiss)
        as (ty & nm & ad & _ & _ & _ & _ & _ & _ & Heq).
      rewrite Heq in *. cbn [after trace services] in *.
      rewrite dict_get_set_eq in Hget. injection Hget as <-.
      apply list_elem_of_here.
  - intros rnd now send_ok data -> Hmiss. simpl.
    destruct (create_service_ok rnd now send_ok data st Hmiss)
      as (ty & nm & ad & _ & _ & _ & _ & _ & _ & ->).
    cbn [trace]. eexists _, _. split; [done|].
    intros x. rewrite broadcast_log, list_elem_of_In, in_map_iff.
    intros (h & <- & _). eauto.
  - intros rnd now send_ok data -> Hmiss. simpl.
    by rewrite create_service_missing.
  - intros now sid data ->. apply Hput.
  - intros now sid data ->. apply Hpatch.
  - intros sid ->. apply Hdel.
Qed.

(** C9 — cross-surface read equivalence.  For every state and every value
    of the [type] argument, the REST list answers 200 with the records
    that the GraphQL resolver [services(type)] returns, in the same
    order.  Both read the one registry: the records are its values in
    insertion order, all of them when the argument is absent or the empty
    string, and otherwise those whose [type] is equal to the argument. *)
Theorem graphql_rest_equivalence st t :
  list_services t st
  = Reply {| status := 200;
             body_of := JsonBody (JArr (List.map JObj (resolve_services t st)));
             headers := [] |}
  ∧ resolve_services t st
    = match t with
      | None => dict_values (services st)
      | Some ty =>
          if String.eqb ty "" then dict_values (services st)
          else List.filter (λ s, eq_str (dict_get "type" s) ty)
                 (dict_values (services st))
      end
  ∧ (∀ v ty, eq_str v ty = true ↔ v = Some (JStr ty))
  ∧ sublist (resolve_services t st) (dict_values (services st)).
Proof.
  split; [done|]. split; [|split].
  - unfold resolve_services, select_type. by destruct t as [[|c ty]|].
  - intros v ty. unfold eq_str.
    destruct v as [[| | |s'| |]|]; try (by split).
    rewrite String.eqb_eq. split; [by intros -> | by intros [= ->]].
  - unfold resolve_services, select_type. destruct t as [[|c ty]|]; try done.
    generalize (dict_values (services st)). intros l.
    induction l as [|s l IH]; simpl; [done|].
    destruct (eq_str _ _); [by apply sublist_skip | by apply sublist_cons].
Qed.

Lemma dict_get_del_Some {V} k k' (v : V) (d : pydict V) :
  NoDup (dict_keys d) → dict_get k' (dict_del k d) = Some v →
  dict_get k' d = Some v.
Proof.
  intros Hnd Hget. destruct (String.eqb_spec k k') as [->|Hne].
  - by rewrite dict_get_del_eq in Hget.
  - by rewrite dict_get_del_ne in Hget.
Qed.

(** C10 — identifier invariant.  In every reachable registry the [id]
    field of each stored record is the key under which it is stored, and
    the record has the seven fields of a service.  A replace, a patch or
    a delete leaves, under every key that is still stored, a record with
    the [id] the record under that key had before: they add no key and
    change no [id]. *)
Theorem id_invariant st :
  reachable st →
  (∀ sid rec,
     dict_get sid (services st) = Some rec →
     dict_get "id" rec = Some (JStr sid)
     ∧ dict_keys rec
       = ["id"; "type"; "name"; "address"; "hours"; "phone"; "updatedAt"])
  ∧ (∀ o : outcome,
       (∃ now sid data, o = put_service now sid data st)
       ∨ (∃ now sid data, o = patch_service now sid data st)
       ∨ (∃ sid, o = delete_service sid st) →
       ∀ sid' rec',
         dict_get sid' (services (after o)) = Some rec' →
         ∃ rec,
           dict_get sid' (services st) = Some rec
           ∧ dict_get "id" rec' = dict_get "id" rec).
Proof.
  intros Hreach. pose proof (reachable_wf st Hreach) as Hwf.
  split.
  { intros sid rec Hget. destruct (wf_state_get st sid rec Hwf Hget). by split. }
  intros o Ho sid' rec' Hget'.
  destruct Ho as [(now & sid & data & ->)|[(now & sid & data & ->)|(sid & ->)]].
  - destruct (dict_get sid (services st)) as [rec|] eqn:Hget.
    + pose proof (wf_state_get st sid rec Hwf Hget) as Hrec.
      destruct (decide (missing_fields data = [])) as [Hmiss|Hmiss].
      * destruct (put_service_ok now sid data st rec Hrec Hget Hmiss)
          as (ty & nm & ad & _ & _ & _ & _ & _ & _ & Heq).
        rewrite Heq in Hget'. cbn [answer after services] in Hget'.
        rewrite dict_get_set in Hget'.
        destruct (String.eqb_spec sid sid') as [<-|Hne]; [|eauto].
        injection Hget' as <-. exists rec. split; [done|].
        by destruct Hrec as [_ ->].
      * rewrite (put_service_missing now sid data st rec) in Hget' by done.
        eauto.
    + rewrite put_service_unknown in Hget' by done. eauto.
  - destruct (dict_get sid (services st)) as [rec|] eqn:Hget.
    + pose proof (wf_state_get st sid rec Hwf Hget) as Hrec.
      rewrite (patch_service_found now sid data st rec) in Hget';
        [|by eapply wf_record_nonempty|done].
      cbn [answer after services] in Hget'. rewrite dict_get_set in Hget'.
      destruct (String.eqb_spec sid sid') as [<-|Hne]; [|eauto].
      injection Hget' as <-. exists rec. split; [done|].
      by rewrite patched_get.
    + rewrite patch_service_unknown in Hget' by done. eauto.
  - destruct (dict_get sid (services st)) as [rec|] eqn:Hget.
    + rewrite (delete_service_found sid st rec Hget) in Hget'.
      cbn [answer after services] in Hget'. exists rec'. split; [|done].
      destruct Hwf as [Hnd _]. by eapply dict_get_del_Some.
    + rewrite delete_service_unknown in Hget' by done. eauto.
Qed.

Lemma id_invariant_witness :
  reachable sample_state
  ∧ dict_get "id" sample_record = Some (JStr sample_sid).
Proof.
  split; [exact sample_reachable|].
  destruct (id_invariant sample_state sample_reachable) as [Hid _].
  apply (Hid sample_sid sample_record sample_stored).
Defined.

(** * Further properties of the code *)

Set Warnings "-clear-no-such-hyp".

Lemma dict_get_values {V} k (v : V) (d : pydict V) :
  dict_get k d = Some v → v ∈ dict_values d.
Proof.
  induction d as [|[k' v'] d IH]; simpl; [done|].
  destruct (String.eqb_spec k' k) as [->|_].
  - intros [= ->]. apply list_elem_of_here.
  - intros ?. by apply list_elem_of_further, IH.
Qed.

(** X1 — create, then read.  After a create whose body passes the
    validation, the id named by the [Location] header is the [id] of the
    returned record; a get of that id answers 200 with exactly that
    record, a get carrying the record's fingerprint answers 304, the
    GraphQL resolver [service(id)] returns the record and the list
    contains it. *)
Theorem create_get_round_trip rnd now send_ok data st :
  missing_fields data = [] →
  let o := create_service rnd now send_ok data st in
  let sid := uuid4 rnd in
  ∃ rec,
    reply_of o
    = Reply {| status := 201; body_of := JsonBody (JObj rec);
               headers := [("Location", "/api/v1/services/" +:+ sid)] |}
    ∧ dict_get "id" rec = Some (JStr sid)
    ∧ get_service None sid (after o)
      = Reply {| status := 200; body_of := JsonBody (JObj rec);
                 headers :=
                   [("ETag", compute_etag rec);
                    ("Cache-Control", cache_control)] |}
    ∧ get_service (Some (compute_etag rec)) sid (after o)
      = Reply {| status := 304; body_of := TextBody "";
                 headers :=
                   [("ETag", compute_etag rec);
                    ("Cache-Control", cache_control)] |}
    ∧ resolve_service sid (after o) = Some rec
    ∧ rec ∈ resolve_services None (after o).
Proof.
  intros Hmiss o sid. subst o sid.
  destruct (create_service_ok rnd now send_ok data st Hmiss)
    as (ty & nm & ad & _ & _ & _ & _ & _ & _ & ->).
  cbv zeta. cbn [after reply_of]. eexists. split; [done|].
  match goal with |- context [get_service None _ ?s] => set (st' := s) end.
  assert (dict_get (uuid4 rnd) (services st')
          = Some (record_of now (uuid4 rnd) data ty nm ad)) as Hget
    by apply dict_get_set_eq.
  split; [done|].
  assert (record_of now (uuid4 rnd) data ty nm ad ≠ []) as Hne by done.
  split; [by rewrite (get_service_found _ _ _ _ Hne Hget)|].
  split.
  { rewrite (get_service_found _ _ _ _ Hne Hget). cbv zeta.
    by rewrite (proj2 (inm_matches_true _ _ (compute_etag_nonempty _))). }
  split; [exact Hget|].
  unfold resolve_services, select_type. cbn [services].
  by eapply dict_get_values.
Qed.

Lemma create_get_round_trip_witness :
  ∃ rec,
    dict_get "id" rec = Some (JStr (uuid4 11))
    ∧ resolve_service (uuid4 11)
        (after (create_service 11 sample_now (λ _ _, false) sample_data
                  sample_state))
      = Some rec.
Proof.
  destruct (create_get_round_trip 11 sample_now (λ _ _, false) sample_data
              sample_state eq_refl)
    as (rec & _ & Hid & _ & _ & Hres & _).
  exists rec. split; [exact Hid | exact Hres].
Defined.

Lemma body_or_empty_cases parsed :
  (py_truthy parsed && negb (is_object parsed) = true
   ∧ body_or_empty parsed = parsed ∧ is_object parsed = false)
  ∨ (py_truthy parsed && negb (is_object parsed) = false
     ∧ ∃ data, body_or_empty parsed = JObj data).
Proof.
  unfold body_or_empty.
  destruct parsed as [|[]|n|s|[|x xs]|[|kv kvs]]; simpl; eauto;
    try (right; split; [done | by eexists]).
  - destruct (n =? 0); simpl; [right|left]; eauto.
  - destruct (String.eqb s ""); simpl; [right|left]; eauto.
Qed.

Lemma put_service_trace now sid data st : trace (put_service now sid data st) = [].
Proof.
  unfold put_service, item, answer, raise. repeat (case_match; try done).
Qed.

Lemma patch_service_trace now sid data st :
  trace (patch_service now sid data st) = [].
Proof. unfold patch_service, answer. repeat (case_match; try done). Qed.

Lemma patch_service_reachable now sid data st :
  reachable st → reachable (after (patch_service now sid data st)).
Proof. intros Hreach. apply (reachable_step (Patch now sid data) st Hreach). Qed.

(** X2 — what every mutation answers, for every parsed body (null, a
    boolean, an integer, a string, an array or an object).  In a
    reachable registry: create raises [AttributeError] exactly on a true
    body that is not an object and otherwise answers 201 or 400; replace
    answers 404 for an unknown id whatever the body, and for a stored id
    raises on the same bodies as create and otherwise answers 200 or
    400; patch answers 404 for an unknown id, and for a stored id raises
    [TypeError] exactly on a non-zero number, on [true], and on a string
    or an array in which one of the five field names occurs, and
    otherwise answers 200, a body that is no object counting as the
    empty one; delete answers 204 or 404.  No request raises [KeyError];
    a request that raises, or is answered 400 or 404, leaves the state as
    it is and sends nothing; and the state after each request is again
    reachable. *)
Theorem mutation_outcomes st :
  reachable st →
  (∀ rnd now send_ok parsed,
     let o := create_request rnd now send_ok parsed st in
     (py_truthy parsed && negb (is_object parsed) = true →
      o = {| after := st; reply_of := Uncaught (AttributeError "get");
             trace := [] |})
     ∧ (py_truthy parsed && negb (is_object parsed) = false →
        ∃ data r,
          body_or_empty parsed = JObj data
          ∧ reply_of o = Reply r
          ∧ ((status r = 201 ∧ missing_fields data = [])
             ∨ (status r = 400 ∧ missing_fields data ≠ []
                ∧ after o = st ∧ trace o = [])))
     ∧ reachable (after o))
  ∧ (∀ now sid parsed,
       let o := put_request now sid parsed st in
       (dict_mem sid (services st) = false →
        o = {| after := st; reply_of := Reply not_found; trace := [] |})
       ∧ (dict_mem sid (services st) = true →
          py_truthy parsed && negb (is_object parsed) = true →
          o = {| after := st; reply_of := Uncaught (AttributeError "get");
                 trace := [] |})
       ∧ (dict_mem sid (services st) = true →
          py_truthy parsed && negb (is_object parsed) = false →
          ∃ data r,
            body_or_empty parsed = JObj data
            ∧ reply_of o = Reply r ∧ trace o = []
            ∧ ((status r = 200 ∧ missing_fields data = [])
               ∨ (status r = 400 ∧ missing_fields data ≠ [] ∧ after o = st)))
       ∧ reachable (after o))
  ∧ (∀ now sid parsed,
       let o := patch_request now sid parsed st in
       let raises :=
         match parsed with
         | JBool b => b
         | JInt n => negb (n =? 0)
         | JStr _ | JArr _ =>
             List.existsb (λ k, key_in k parsed)
               ["type"; "name"; "address"; "hours"; "phone"]
         | _ => false
         end in
       (dict_mem sid (services st) = false →
        o = {| after := st; reply_of := Reply not_found; trace := [] |})
       ∧ (dict_mem sid (services st) = true → raises = true →
          o = {| after := st; reply_of := Uncaught TypeError; trace := [] |})
       ∧ (dict_mem sid (services st) = true → raises = false →
          o = patch_service now sid
                match parsed with JObj data => data | _ => [] end st
          ∧ trace o = []
          ∧ ∃ r, reply_of o = Reply r ∧ status r = 200)
       ∧ reachable (after o))
  ∧ (∀ sid,
       let o := delete_service sid st in
       ∃ r, reply_of o = Reply r ∧ trace o = []
            ∧ ((status r = 204 ∧ dict_mem sid (services st) = true)
               ∨ (status r = 404 ∧ dict_mem sid (services st) = false
                  ∧ after o = st))
            ∧ reachable (after o)).
Proof.
  intros Hreach. pose proof (reachable_wf st Hreach) as Hwf.
  split; [|split; [|split]].
  - intros rnd now send_ok parsed o. subst o. unfold create_request.
    destruct (body_or_empty_cases parsed)
      as [(Hbad & -> & Hobj)|(Hbad & data & ->)]; rewrite Hbad.
    + split; [|split; [done|]].
      * intros _. by destruct parsed.
      * by destruct parsed.
    + split; [done|]. split.
      * intros _. exists data.
        destruct (decide (missing_fields data = [])) as [Hmiss|Hmiss].
        -- destruct (create_service_ok rnd now send_ok data st Hmiss)
             as (ty & nm & ad & _ & _ & _ & _ & _ & _ & ->).
           eexists. split; [done|]. split; [done|]. left. by split.
        -- rewrite create_service_missing by done.
           eexists. split; [done|]. split; [done|]. right. by repeat split.
      * apply (reachable_step (Create rnd now send_ok data) st Hreach).
  - intros now sid parsed o. subst o. unfold put_request, dict_mem.
    destruct (dict_get sid (services st)) as [rec|] eqn:Hget; simpl.
    + split; [done|].
      destruct (body_or_empty_cases parsed)
        as [(Hbad & -> & Hobj)|(Hbad & data & ->)]; rewrite Hbad.
      * split; [|split; [done|]]; [intros _ _|]; by destruct parsed.
      * split; [done|]. split.
        -- intros _ _. exists data.
           pose proof (wf_state_get st sid rec Hwf Hget) as Hrec.
           destruct (decide (missing_fields data = [])) as [Hmiss|Hmiss].
           ++ destruct (put_service_ok now sid data st rec Hrec Hget Hmiss)
                as (ty & nm & ad & _ & _ & _ & _ & _ & _ & ->).
              eexists. do 3 (split; [done|]). left. by split.
           ++ rewrite (put_service_missing now sid data st rec) by done.
              eexists. do 3 (split; [done|]). right. by repeat split.
        -- apply (reachable_step (Put now sid data) st Hreach).
    + split; [done|]. by repeat split.
  - intros now sid parsed o raises. subst o. unfold patch_request, dict_mem.
    destruct (dict_get sid (services st)) as [rec|] eqn:Hget.
    + pose proof (wf_state_get st sid rec Hwf Hget) as Hrec.
      pose proof (wf_record_nonempty sid rec Hrec) as Hne.
      assert (∀ data,
                patch_service now sid data st
                = patch_service now sid data st
                ∧ trace (patch_service now sid data st) = []
                ∧ ∃ r, reply_of (patch_service now sid data st) = Reply r
                       ∧ status r = 200) as Hok.
      { intros data. split; [done|]. split; [apply patch_service_trace|].
        rewrite (patch_service_found now sid data st rec Hne Hget).
        by eexists. }
      destruct rec as [|kv rec]; [done|]. split; [done|].
      subst raises. unfold body_or_empty, patchable.
      destruct parsed as [|[]|n|s|xs|kvs]; cbn [py_truthy negb].
      * split; [done|]. split; [intros _ _; apply Hok|].
        by apply patch_service_reachable.
      * split; [done|]. by split.
      * split; [done|]. split; [intros _ _; apply Hok|].
        by apply patch_service_reachable.
      * destruct (n =? 0); cbn [negb].
        -- split; [done|]. split; [intros _ _; apply Hok|].
           by apply patch_service_reachable.
        -- split; [done|]. by split.
      * destruct (String.eqb_spec s "") as [->|Hs]; cbn [negb].
        -- split; [done|]. split; [intros _ _; apply Hok|].
           by apply patch_service_reachable.
        -- destruct (List.existsb _ _).
           ++ split; [done|]. by split.
           ++ split; [done|]. split; [intros _ _; apply Hok|].
              by apply patch_service_reachable.
      * destruct xs as [|x xs].
        -- split; [done|]. split; [intros _ _; apply Hok|].
           by apply patch_service_reachable.
        -- destruct (List.existsb _ _).
           ++ split; [done|]. by split.
           ++ split; [done|]. split; [intros _ _; apply Hok|].
              by apply patch_service_reachable.
      * destruct kvs as [|kv' kvs].
        -- split; [done|]. split; [intros _ _; apply Hok|].
           by apply patch_service_reachable.
        -- split; [done|]. split; [intros _ _; apply Hok|].
           by apply patch_service_reachable.
    + split; [done|]. by repeat split.
  - intros sid o. subst o. unfold dict_mem.
    pose proof (reachable_step (Delete sid) st Hreach) as Hstep.
    simpl in Hstep.
    destruct (dict_get sid (services st)) as [rec|] eqn:Hget.
    + rewrite (delete_service_found sid st rec Hget) in *.
      eexists. split; [done|]. split; [done|]. split; [|done].
      left. by split.
    + rewrite delete_service_unknown in * by done.
      eexists. split; [done|]. split; [done|]. split; [|done].
      right. by split.
Qed.

Lemma mutation_outcomes_witness :
  reachable sample_state
  ∧ create_request 11 sample_now (λ _ _, true) (JArr [JStr "x"]) sample_state
    = {| after := sample_state;
         reply_of := Uncaught (AttributeError "get"); trace := [] |}
  ∧ put_request sample_now sample_sid (JInt 5) sample_state
    = {| after := sample_state;
         reply_of := Uncaught (AttributeError "get"); trace := [] |}
  ∧ patch_request sample_now sample_sid (JStr "name") sample_state
    = {| after := sample_state; reply_of := Uncaught TypeError; trace := [] |}.
Proof.
  split; [exact sample_reachable|].
  destruct (mutation_outcomes sample_state sample_reachable)
    as (Hcreate & Hput & Hpatch & _).
  split; [|split].
  - by apply (Hcreate 11 sample_now (λ _ _, true) (JArr [JStr "x"])).
  - by apply (Hput sample_now sample_sid (JInt 5)).
  - by apply (Hpatch sample_now sample_sid (JStr "name")).
Defined.

(** X4 — the lifetime of a WebSocket connection.  Accepting a connection
    sends it the acknowledgement and nothing else, and leaves the registry
    alone; the handle is registered afterwards exactly when that send
    returned, and the other handles are registered as before.  When the
    connection ends the handle is no longer registered, whether or not it
    was, and the other handles are registered as before. *)
Theorem ws_connection_lifetime send_ok h st :
  let ack := dumps_default connected_event in
  let opened := fst (ws_open send_ok h st) in
  snd (ws_open send_ok h st) = [Send h ack]
  ∧ services opened = services st
  ∧ (h ∈ ws_clients opened ↔ send_ok h ack = true)
  ∧ (∀ h', h' ≠ h → h' ∈ ws_clients opened ↔ h' ∈ ws_clients st)
  ∧ services (ws_close h st) = services st
  ∧ (h ∉ ws_clients (ws_close h st))
  ∧ (h ∉ ws_clients (ws_close h opened))
  ∧ (∀ h', h' ≠ h → h' ∈ ws_clients (ws_close h st) ↔ h' ∈ ws_clients st)
  ∧ (h ∉ ws_clients st → ws_clients (ws_close h opened) = ws_clients st).
Proof.
  intros ack opened. subst opened. unfold ws_open, ws_close. fold ack.
  cbn [fst snd services ws_clients].
  split; [done|]. split; [done|].
  destruct (send_ok h ack); repeat split; try set_solver.
Qed.

(** X5 — a subscriber and a create.  A connection whose acknowledgement
    was delivered is sent, by the next create whose body passes the
    validation, the [serviceCreated] event that carries the record of the
    201 reply, and it stays registered exactly when that send returns; a
    connection that has ended is sent nothing. *)
Theorem subscriber_receives_created ack_ok send_ok h rnd now data st :
  ack_ok h (dumps_default connected_event) = true →
  missing_fields data = [] →
  let opened := fst (ws_open ack_ok h st) in
  let o := create_service rnd now send_ok data opened in
  ∃ rec,
    reply_of o
    = Reply {| status := 201; body_of := JsonBody (JObj rec);
               headers :=
                 [("Location", "/api/v1/services/" +:+ uuid4 rnd)] |}
    ∧ Send h (dumps_default (created_event rec)) ∈ trace o
    ∧ (h ∈ ws_clients (after o)
       ↔ send_ok h (dumps_default (created_event rec)) = true)
    ∧ ∀ m,
        Send h m
        ∉ trace (create_service rnd now send_ok data (ws_close h opened)).
Proof.
  intros Hack Hmiss opened o. subst o.
  assert (h ∈ ws_clients opened) as Hin.
  { subst opened. unfold ws_open. cbn [fst ws_clients]. rewrite Hack.
    set_solver. }
  destruct (create_service_ok rnd now send_ok data opened Hmiss)
    as (ty & nm & ad & _ & _ & _ & _ & _ & _ & ->).
  destruct (create_service_ok rnd now send_ok data (ws_close h opened) Hmiss)
    as (ty' & nm' & ad' & _ & _ & _ & _ & _ & _ & ->).
  cbv zeta. cbn [after reply_of trace ws_clients]. eexists.
  split; [done|]. split; [|split].
  - apply list_elem_of_further. rewrite broadcast_log, elem_of_send_log.
    by rewrite elem_of_elements.
  - rewrite broadcast_clients. by split; [intros [_ ?]|].
  - intros m [[=]|Hsent]%elem_of_cons.
    rewrite broadcast_log, elem_of_send_log, elem_of_elements in Hsent.
    destruct Hsent as [_ Hsent]. unfold ws_close in Hsent.
    cbn [ws_clients] in Hsent. set_solver.
Qed.

Lemma subscriber_receives_created_witness :
  ∃ rec,
    Send 3%nat (dumps_default (created_event rec))
    ∈ trace (create_service 11 sample_now (λ _ _, false) sample_data
               (fst (ws_open (λ _ _, true) 3%nat sample_state))).
Proof.
  destruct (subscriber_receives_created (λ _ _, true) (λ _ _, false) 3%nat 11
              sample_now sample_data sample_state eq_refl eq_refl)
    as (rec & _ & Hsent & _).
  exists rec. exact Hsent.
Defined.

(** ** Lookups and listings *)

Lemma dict_get_elem {V} k (v : V) (d : pydict V) :
  NoDup (dict_keys d) → dict_get k d = Some v ↔ (k, v) ∈ d.
Proof.
  induction d as [|[k' v'] d IH]; simpl.
  - intros _. split; [done | by intros ?%elem_of_nil].
  - rewrite NoDup_cons, elem_of_cons. intros [Hnin Hnd].
    destruct (String.eqb_spec k' k) as [->|Hne].
    + split; [intros [= ->]; by left|].
      intros [[= ->]|Hin]; [done|]. destruct Hnin. unfold dict_keys.
      by apply list_elem_of_In, (in_map fst d (k, v)), list_elem_of_In.
    + rewrite IH by done. split; [by right|].
      intros [[= -> ->]|?]; done.
Qed.

Lemma dict_values_elem {V} (v : V) (d : pydict V) :
  v ∈ dict_values d ↔ ∃ k, (k, v) ∈ d.
Proof.
  unfold dict_values. rewrite list_elem_of_In, in_map_iff. split.
  - intros ([k v'] & <- & Hin). exists k. by apply list_elem_of_In.
  - intros (k & Hin). exists (k, v). split; [done|]. by apply list_elem_of_In.
Qed.

Lemma dict_set_new {V} k (v : V) (d : pydict V) :
  dict_get k d = None → dict_set k v d = (d ++ [(k, v)])%list.
Proof.
  induction d as [|[k' v'] d IH]; simpl; [done|].
  destruct (String.eqb_spec k' k) as [->|_]; [done|].
  intros ?. f_equal. by apply IH.
Qed.

(** In a well-formed registry a record is listed when, and only when, it
    is stored under some id, which is then its own. *)
Lemma wf_listed st rec :
  wf_state st →
  rec ∈ dict_values (services st)
  ↔ ∃ sid, dict_get sid (services st) = Some rec
           ∧ dict_get "id" rec = Some (JStr sid).
Proof.
  intros Hwf. pose proof Hwf as [Hnd _]. rewrite dict_values_elem. split.
  - intros (sid & Hin). exists sid. apply dict_get_elem in Hin; [|done].
    split; [done|]. by destruct (wf_state_get st sid rec Hwf Hin).
  - intros (sid & Hget & _). exists sid. by apply dict_get_elem.
Qed.

Lemma wf_values_NoDup st : wf_state st → NoDup (dict_values (services st)).
Proof.
  intros [Hnd Hall]. induction Hall as [|[k v] d [_ Hid] Hall IH]; simpl in *.
  - apply NoDup_nil_2.
  - apply NoDup_cons in Hnd as [Hnin Hnd]. apply NoDup_cons.
    split; [|by apply IH].
    intros (k' & Hin)%dict_values_elem. apply Hnin.
    rewrite Forall_forall in Hall. destruct (Hall _ Hin) as [_ Hid'].
    simpl in Hid'. rewrite Hid in Hid'. injection Hid' as ->.
    unfold dict_keys.
    by apply list_elem_of_In, (in_map fst d (k', v)), list_elem_of_In.
Qed.

(** X6 — GraphQL [service(id)] and REST get.  In a reachable registry,
    when the resolver returns a record, that record carries the requested
    id, the list contains it and a get of the id answers 200 with it; when
    the resolver returns nothing, a get of the id answers 404 whatever
    its precondition and no listed record carries the id. *)
Theorem graphql_service_matches_get st id :
  reachable st →
  match resolve_service id st with
  | Some rec =>
      dict_get "id" rec = Some (JStr id)
      ∧ rec ∈ resolve_services None st
      ∧ get_service None id st
        = Reply {| status := 200; body_of := JsonBody (JObj rec);
                   headers :=
                     [("ETag", compute_etag rec);
                      ("Cache-Control", cache_control)] |}
  | None =>
      (∀ inm, get_service inm id st = Reply not_found)
      ∧ ∀ rec, rec ∈ resolve_services None st →
          dict_get "id" rec ≠ Some (JStr id)
  end.
Proof.
  intros Hreach. pose proof (reachable_wf st Hreach) as Hwf.
  unfold resolve_service, resolve_services, select_type.
  destruct (dict_get id (services st)) as [rec|] eqn:Hget.
  - pose proof (wf_state_get st id rec Hwf Hget) as Hrec.
    split; [apply Hrec|]. split; [by eapply dict_get_values|].
    by rewrite (get_service_found None id st rec
                  (wf_record_nonempty id rec Hrec) Hget).
  - split; [intros inm; by apply get_service_unknown|].
    intros rec (sid & Hsid & Hid)%wf_listed Hid'; [|done].
    rewrite Hid in Hid'. injection Hid' as ->. congruence.
Qed.

Lemma graphql_service_matches_get_witness :
  reachable sample_state
  ∧ ∀ inm, get_service inm "no-such-id" sample_state = Reply not_found.
Proof.
  split; [exact sample_reachable|].
  exact (proj1 (graphql_service_matches_get sample_state "no-such-id"
                  sample_reachable)).
Defined.

(** X7 — the list and the single lookups.  In a reachable registry the
    unfiltered list holds exactly the records that some id resolves to,
    each once, so it is as long as the registry; with a non-empty [type]
    argument it holds exactly those of them whose [type] is the
    argument. *)
Theorem listed_iff_stored st :
  reachable st →
  (∀ rec,
     rec ∈ resolve_services None st
     ↔ ∃ sid, resolve_service sid st = Some rec)
  ∧ (∀ ty rec,
       ty ≠ "" →
       rec ∈ resolve_services (Some ty) st
       ↔ (∃ sid, resolve_service sid st = Some rec)
         ∧ dict_get "type" rec = Some (JStr ty))
  ∧ (∀ t, NoDup (resolve_services t st))
  ∧ List.length (resolve_services None st) = List.length (services st).
Proof.
  intros Hreach. pose proof (reachable_wf st Hreach) as Hwf.
  assert (∀ rec,
            rec ∈ dict_values (services st)
            ↔ ∃ sid, dict_get sid (services st) = Some rec) as Hall.
  { intros rec. rewrite (wf_listed st rec Hwf). split.
    - intros (sid & ? & _). eauto.
    - intros (sid & Hget). exists sid. split; [done|].
      by destruct (wf_state_get st sid rec Hwf Hget). }
  assert (∀ ty (l : list (pydict json)),
            NoDup l →
            NoDup (List.filter (λ s, eq_str (dict_get "type" s) ty) l))
    as Hfilter.
  { intros ty l. induction 1 as [|x l Hx Hl IH]; simpl; [apply NoDup_nil_2|].
    destruct (eq_str _ _); [|done]. apply NoDup_cons. split; [|done].
    rewrite list_elem_of_In, filter_In, <- list_elem_of_In. by intros [? _]. }
  unfold resolve_service, resolve_services, select_type.
  split; [exact Hall|]. split; [|split].
  - intros ty rec Hty. destruct ty as [|c ty]; [done|].
    rewrite list_elem_of_In, filter_In, <- list_elem_of_In, Hall.
    unfold eq_str. destruct (dict_get "type" rec) as [[| | |s| |]|];
      try (split; [by intros [_ ?] | by intros [_ ?]]).
    rewrite String.eqb_eq. split; [by intros [? ->] | by intros [? [= ->]]].
  - intros [[|c ty]|]; try (by apply wf_values_NoDup).
    by apply Hfilter, wf_values_NoDup.
  - unfold dict_values. apply length_map.
Qed.

Lemma listed_iff_stored_witness :
  reachable sample_state
  ∧ List.length (resolve_services None sample_state) = 1%nat.
Proof.
  split; [exact sample_reachable|].
  exact (proj2 (proj2 (proj2 (listed_iff_stored sample_state
                                sample_reachable)))).
Defined.

Lemma dict_keys_del {V} k (d : pydict V) :
  NoDup (dict_keys d) →
  dict_keys (dict_del k d)
  = List.filter (λ k', negb (String.eqb k' k)) (dict_keys d).
Proof.
  induction d as [|[k' v'] d IH]; simpl; [done|].
  rewrite NoDup_cons. intros [Hnin Hnd].
  destruct (String.eqb_spec k' k) as [->|Hne]; simpl.
  - symmetry. apply filter_keep_all. intros k0 Hin.
    apply negb_true_iff, String.eqb_neq. by intros ->.
  - f_equal. by apply IH.
Qed.

(** X8 — the order of the registry.  In a reachable registry, a create
    whose generated id is not yet stored puts its record last in the
    list; were the generated id already stored, the record stored under
    it would be replaced where it stands.  A replace and a patch leave
    the ids and their order as they are, and a delete removes the id it
    names and keeps the order of the others. *)
Theorem registry_order st :
  reachable st →
  (∀ rnd now send_ok data,
     missing_fields data = [] →
     let o := create_service rnd now send_ok data st in
     ∃ rec,
       resolve_service (uuid4 rnd) (after o) = Some rec
       ∧ (dict_mem (uuid4 rnd) (services st) = false →
          resolve_services None (after o)
          = (resolve_services None st ++ [rec])%list
          ∧ dict_keys (services (after o))
            = (dict_keys (services st) ++ [uuid4 rnd])%list)
       ∧ (dict_mem (uuid4 rnd) (services st) = true →
          dict_keys (services (after o)) = dict_keys (services st)))
  ∧ (∀ now sid data,
       dict_keys (services (after (put_service now sid data st)))
       = dict_keys (services st))
  ∧ (∀ now sid data,
       dict_keys (services (after (patch_service now sid data st)))
       = dict_keys (services st))
  ∧ (∀ sid,
       dict_keys (services (after (delete_service sid st)))
       = List.filter (λ k, negb (String.eqb k sid)) (dict_keys (services st))).
Proof.
  intros Hreach. pose proof (reachable_wf st Hreach) as Hwf.
  split; [|split; [|split]].
  - intros rnd now send_ok data Hmiss o. subst o.
    destruct (create_service_ok rnd now send_ok data st Hmiss)
      as (ty & nm & ad & _ & _ & _ & _ & _ & _ & ->).
    cbv zeta. cbn [after services]. eexists.
    unfold resolve_service, resolve_services, select_type, dict_mem.
    cbn [services]. split; [apply dict_get_set_eq|]. split.
    + destruct (dict_get (uuid4 rnd) (services st)) eqn:Hget; [done|].
      intros _. rewrite dict_set_new by done. unfold dict_values, dict_keys.
      by rewrite !map_app.
    + destruct (dict_get (uuid4 rnd) (services st)) eqn:Hget; [|done].
      intros _. apply dict_keys_set_old. by eapply dict_get_Some_keys.
  - intros now sid data.
    destruct (dict_get sid (services st)) as [rec|] eqn:Hget.
    + pose proof (wf_state_get st sid rec Hwf Hget) as Hrec.
      destruct (decide (missing_fields data = [])) as [Hmiss|Hmiss].
      * destruct (put_service_ok now sid data st rec Hrec Hget Hmiss)
          as (ty & nm & ad & _ & _ & _ & _ & _ & _ & ->).
        cbv zeta. cbn [answer after services].
        apply dict_keys_set_old. by eapply dict_get_Some_keys.
      * by rewrite (put_service_missing now sid data st rec).
    + by rewrite put_service_unknown.
  - intros now sid data.
    destruct (dict_get sid (services st)) as [rec|] eqn:Hget.
    + pose proof (wf_state_get st sid rec Hwf Hget) as Hrec.
      rewrite (patch_service_found now sid data st rec);
        [|by eapply wf_record_nonempty|done].
      cbn [answer after services].
      apply dict_keys_set_old. by eapply dict_get_Some_keys.
    + by rewrite patch_service_unknown.
  - intros sid. destruct Hwf as [Hnd _].
    destruct (dict_get sid (services st)) as [rec|] eqn:Hget.
    + rewrite (delete_service_found sid st rec Hget).
      cbn [answer after services]. by apply dict_keys_del.
    + rewrite delete_service_unknown by done. cbn [answer after].
      symmetry. apply filter_keep_all. intros k Hin.
      apply negb_true_iff, String.eqb_neq. intros ->.
      by apply dict_get_None_keys in Hget.
Qed.

Lemma registry_order_witness :
  reachable sample_state
  ∧ dict_keys (services (after (delete_service sample_sid sample_state))) = [].
Proof.
  split; [exact sample_reachable|].
  exact (proj2 (proj2 (proj2 (registry_order sample_state sample_reachable)))
           sample_sid).
Defined.

(** ** Repeating a request *)

Lemma dict_set_set {V} k (v w : V) (d : pydict V) :
  dict_set k w (dict_set k v d) = dict_set k w d.
Proof.
  induction d as [|[k' v'] d IH]; simpl.
  - by rewrite String.eqb_refl.
  - destruct (String.eqb_spec k' k) as [->|Hne]; simpl.
    + by rewrite String.eqb_refl.
    + apply String.eqb_neq in Hne as ->. by rewrite IH.
Qed.

Lemma store_store sid rec st : store sid rec (store sid rec st) = store sid rec st.
Proof. unfold store. cbn [services ws_clients]. by rewrite dict_set_set. Qed.

Lemma patched_idem now data sid rec :
  wf_record sid rec →
  patched now data (patched now data rec) = patched now data rec.
Proof.
  intros (ty & nm & ad & hr & ph & up & ->)%wf_record_shape.
  unfold patched, apply_patch, patchable, patch_key. cbn [List.fold_left].
  destruct (dict_get "type" data), (dict_get "name" data),
    (dict_get "address" data), (dict_get "hours" data),
    (dict_get "phone" data); reflexivity.
Qed.

(** X9 — replace and patch are idempotent.  In a reachable registry,
    sending a replace, or a patch, a second time with the same body and
    the same clock reading gives the reply of the first and leaves the
    state the first left. *)
Theorem replace_patch_idempotent st :
  reachable st →
  (∀ now sid data,
     let o := put_service now sid data st in
     put_service now sid data (after o)
     = {| after := after o; reply_of := reply_of o; trace := [] |})
  ∧ (∀ now sid data,
       let o := patch_service now sid data st in
       patch_service now sid data (after o)
       = {| after := after o; reply_of := reply_of o; trace := [] |}).
Proof.
  intros Hreach. pose proof (reachable_wf st Hreach) as Hwf.
  split.
  - intros now sid data o. subst o.
    destruct (dict_get sid (services st)) as [rec|] eqn:Hget.
    + pose proof (wf_state_get st sid rec Hwf Hget) as Hrec.
      destruct (decide (missing_fields data = [])) as [Hmiss|Hmiss].
      * destruct (put_service_ok now sid data st rec Hrec Hget Hmiss)
          as (ty & nm & ad & Hty & Hnm & Had & _ & _ & _ & ->).
        cbv zeta. cbn [answer after reply_of].
        fold (store sid (record_of now sid data ty nm ad) st).
        set (st1 := store sid (record_of now sid data ty nm ad) st).
        assert (dict_get sid (services st1)
                = Some (record_of now sid data ty nm ad)) as Hget1
          by apply dict_get_set_eq.
        destruct (put_service_ok now sid data st1 _
                    (wf_record_fresh sid _ _ _ _ _ _) Hget1 Hmiss)
          as (ty' & nm' & ad' & Hty' & Hnm' & Had' & _ & _ & _ & ->).
        simplify_eq. cbv zeta.
        fold (store sid (record_of now sid data ty nm ad) st1).
        subst st1. by rewrite store_store.
      * rewrite (put_service_missing now sid data st rec Hget Hmiss).
        cbn [answer after reply_of].
        by rewrite (put_service_missing now sid data st rec Hget Hmiss).
    + rewrite (put_service_unknown now sid data st Hget).
      cbn [answer after reply_of].
      by rewrite (put_service_unknown now sid data st Hget).
  - intros now sid data o. subst o.
    destruct (dict_get sid (services st)) as [rec|] eqn:Hget.
    + pose proof (wf_state_get st sid rec Hwf Hget) as Hrec.
      rewrite (patch_service_found now sid data st rec);
        [|by eapply wf_record_nonempty|done].
      cbn [answer after reply_of].
      fold (store sid (patched now data rec) st).
      set (st1 := store sid (patched now data rec) st).
      assert (dict_get sid (services st1) = Some (patched now data rec))
        as Hget1 by apply dict_get_set_eq.
      rewrite (patch_service_found now sid data st1 (patched now data rec));
        [|eapply wf_record_nonempty; by apply patched_wf|done].
      rewrite (patched_idem now data sid rec Hrec).
      fold (store sid (patched now data rec) st1).
      subst st1. by rewrite store_store.
    + rewrite (patch_service_unknown now sid data st Hget).
      cbn [answer after reply_of].
      by rewrite (patch_service_unknown now sid data st Hget).
Qed.

Lemma replace_patch_idempotent_witness :
  reachable sample_state
  ∧ let o := patch_service sample_now sample_sid [("phone", JStr "555-0100")]
               sample_state in
    patch_service sample_now sample_sid [("phone", JStr "555-0100")] (after o)
    = {| after := after o; reply_of := reply_of o; trace := [] |}.
Proof.
  split; [exact sample_reachable|].
  exact (proj2 (replace_patch_idempotent sample_state sample_reachable)
           sample_now sample_sid [("phone", JStr "555-0100")]).
Defined.

(** ** The characters of the fingerprint and of the serialised text *)

Lemma hex_digit_lower n : is_lower_hex (hex_digit n) = true.
Proof.
  unfold hex_digit. generalize (Z.to_nat (n mod 16)). intros m.
  do 16 (destruct m as [|m]; [reflexivity|]). reflexivity.
Qed.

Lemma list_ascii_app a b :
  list_ascii_of_string (a +:+ b)
  = (list_ascii_of_string a ++ list_ascii_of_string b)%list.
Proof. induction a as [|c a IH]; simpl; [done | by rewrite IH]. Qed.

Lemma string_forall_app p a b :
  string_forall p (a +:+ b) = string_forall p a && string_forall p b.
Proof. unfold string_forall. by rewrite list_ascii_app, forallb_app. Qed.

Lemma string_forall_concat p sep (l : list string) :
  string_forall p sep = true →
  Forall (λ s, string_forall p s = true) l →
  string_forall p (String.concat sep l) = true.
Proof.
  intros Hsep. induction 1 as [|x l Hx Hl IH]; [done|].
  cbn [String.concat]. destruct l as [|y l]; [done|].
  by rewrite !string_forall_app, Hx, Hsep, IH.
Qed.

Lemma hex_fixed_lower w n : string_forall is_lower_hex (hex_fixed w n) = true.
Proof.
  induction w as [|w IH]; [done|]. cbn [hex_fixed].
  unfold string_forall in *. cbn [list_ascii_of_string List.forallb].
  by rewrite hex_digit_lower, IH.
Qed.

(** X10 — the alphabet of the fingerprint.  The ETag of every record, of
    any content, is made of 32 characters that are digits or letters from
    [a] to [f]. *)
Theorem etag_lower_hex obj :
  String.length (compute_etag obj) = 32%nat
  ∧ string_forall is_lower_hex (compute_etag obj) = true.
Proof.
  split; [apply compute_etag_length|].
  unfold compute_etag, MD5.hexdigest.
  apply string_forall_concat; [done|].
  apply Forall_forall. intros s (b & <- & _)%list_elem_of_In%in_map_iff.
  apply hex_fixed_lower.
Qed.

(** Induction on a JSON value, with the hypothesis for every element of an
    array and every member of an object. *)
Lemma json_nested_ind (P : json → Prop) :
  P JNull → (∀ b, P (JBool b)) → (∀ n, P (JInt n)) → (∀ s, P (JStr s)) →
  (∀ xs, Forall P xs → P (JArr xs)) →
  (∀ kvs, Forall (λ kv, P (snd kv)) kvs → P (JObj kvs)) →
  ∀ v, P v.
Proof.
  intros Hnull Hbool Hint Hstr Harr Hobj.
  fix go 1. intros [|b|n|s|xs|kvs].
  - exact Hnull.
  - apply Hbool.
  - apply Hint.
  - apply Hstr.
  - apply Harr. induction xs as [|x xs IH]; constructor; [apply go | exact IH].
  - apply Hobj. induction kvs as [|[k x] kvs IH]; constructor;
      [apply go | exact IH].
Qed.

Lemma escape_char_printable c :
  string_forall is_printable (escape_char c) = true.
Proof. destruct c as [[] [] [] [] [] [] [] []]; by vm_compute. Qed.

Lemma escape_printable s : string_forall is_printable (escape s) = true.
Proof.
  induction s as [|c s IH]; [done|]. cbn [escape].
  by rewrite string_forall_app, escape_char_printable, IH.
Qed.

Lemma encode_str_printable s :
  string_forall is_printable (encode_str s) = true.
Proof.
  unfold encode_str. by rewrite !string_forall_app, escape_printable.
Qed.

Lemma int_repr_printable n : string_forall is_printable (int_repr n) = true.
Proof.
  assert (∀ d, string_forall is_printable (NilEmpty.string_of_uint d) = true)
    as Huint.
  { unfold string_forall. induction d; simpl; by rewrite ?IHd. }
  assert (∀ d, string_forall is_printable (NilZero.string_of_uint d) = true)
    as Hzero.
  { intros d. destruct d; try apply Huint. done. }
  unfold int_repr, NilZero.string_of_int.
  destruct (Z.to_int n) as [d|d]; [apply Hzero|].
  unfold string_forall in *. cbn [list_ascii_of_string List.forallb].
  by rewrite Hzero.
Qed.

Lemma sort_items_Forall {V} (P : string * V → Prop) (l : pydict V) :
  Forall P l → Forall P (sort_items l).
Proof.
  rewrite !Forall_forall. intros Hall x Hx. apply Hall.
  by rewrite sort_items_perm in Hx.
Qed.

Lemma dumps_printable sort_keys isep ksep v :
  string_forall is_printable isep = true →
  string_forall is_printable ksep = true →
  string_forall is_printable (dumps sort_keys isep ksep v) = true.
Proof.
  intros Hisep Hksep. induction v as [|b|n|s|xs IH|kvs IH] using json_nested_ind.
  - done.
  - by destruct b.
  - apply int_repr_printable.
  - apply encode_str_printable.
  - cbn [dumps]. rewrite !string_forall_app.
    rewrite string_forall_concat; [done|done|].
    induction IH as [|x xs Hx _ IHxs]; simpl; by constructor.
  - cbn [dumps]. rewrite !string_forall_app.
    rewrite string_forall_concat; [done|done|].
    set (texts := List.map _ kvs).
    assert (Forall (λ kt : string * string,
                      string_forall is_printable (snd kt) = true) texts)
      as Htexts.
    { subst texts. induction IH as [|[k x] kvs Hx _ IHkvs]; simpl;
        by constructor. }
    assert (∀ items : pydict string,
              Forall (λ kt, string_forall is_printable (snd kt) = true) items →
              Forall (λ s, string_forall is_printable s = true)
                (List.map (λ '(k, t), encode_str k +:+ ksep +:+ t) items))
      as Hrender.
    { induction 1 as [|[k t] items Ht _ IHitems]; simpl; constructor;
        [|done].
      simpl in Ht. by rewrite !string_forall_app, encode_str_printable, Hksep. }
    destruct sort_keys; apply Hrender; [by apply sort_items_Forall | done].
Qed.

Lemma encode_utf8_ascii s :
  string_forall is_printable s = true →
  encode_utf8 s = List.map code (list_ascii_of_string s).
Proof.
  unfold encode_utf8, string_forall.
  induction (list_ascii_of_string s) as [|c l IH]; simpl; [done|].
  intros [Hc Hl]%andb_true_iff. rewrite IH by done. unfold utf8_char.
  unfold is_printable in Hc. apply andb_true_iff in Hc as [_ Hc].
  apply Z.leb_le in Hc. by rewrite (proj2 (Z.ltb_lt _ _)) by lia.
Qed.

(** X11 — the serialised text is printable ASCII.  For every record
    whose values are built from null, booleans, integers, strings of code
    points below 256 (control characters, quotes and the letters from 128
    to 255 among them), arrays and objects, the text that [compute_etag]
    hashes has only characters between the space and the tilde, so its
    UTF-8 encoding is one byte for each character; and every message
    that a request with such a body sends to a WebSocket client is such a
    text too.  (Floating-point numbers and the code points from 256 on
    are outside this statement.) *)
Theorem serialised_text_is_ascii :
  (∀ obj,
     let text := dumps true "," ":" (JObj obj) in
     string_forall is_printable text = true
     ∧ encode_utf8 text = List.map code (list_ascii_of_string text)
     ∧ List.length (encode_utf8 text) = String.length text)
  ∧ (∀ r st h msg,
       Send h msg ∈ snd (run r st) → string_forall is_printable msg = true).
Proof.
  split.
  - intros obj text.
    assert (string_forall is_printable text = true) as Htext
      by by apply dumps_printable.
    split; [done|]. rewrite encode_utf8_ascii by done. split; [done|].
    rewrite length_map. clear. induction text as [|c t IH]; simpl; congruence.
  - intros r st h msg.
    destruct r as [rnd now send_ok data|t|inm sid|now sid data
                  |now sid data|sid|send_ok h'|h']; simpl;
      try (by intros ?%elem_of_nil).
    + destruct (decide (missing_fields data = [])) as [Hmiss|Hmiss].
      * destruct (create_service_ok rnd now send_ok data st Hmiss)
          as (ty & nm & ad & _ & _ & _ & _ & _ & _ & ->).
        cbn [trace]. intros [[=]|Hin]%elem_of_cons.
        rewrite broadcast_log, elem_of_send_log in Hin. destruct Hin as [-> _].
        by apply dumps_printable.
      * rewrite create_service_missing by done. by intros ?%elem_of_nil.
    + unfold put_service, item, answer, raise.
      repeat case_match; by intros ?%elem_of_nil.
    + unfold patch_service, answer.
      repeat case_match; by intros ?%elem_of_nil.
    + unfold delete_service, answer. case_match; by intros ?%elem_of_nil.
    + intros [[= _ ->]|?%elem_of_nil]%elem_of_cons; [|done].
      by apply dumps_printable.
Qed.

(** ** What a body can change *)

(** X12 — only the five content fields of a body are read.  Two bodies
    that agree on [type], [name], [address], [hours] and [phone] get the
    same reply and leave the same state, on create, replace and patch: a
    caller cannot set [id], [updatedAt] or any other key. *)
Theorem foreign_keys_ignored data data' :
  (∀ k, k ∈ patchable → dict_get k data = dict_get k data') →
  (∀ rnd now send_ok st,
     create_service rnd now send_ok data st
     = create_service rnd now send_ok data' st)
  ∧ (∀ now sid st, put_service now sid data st = put_service now sid data' st)
  ∧ (∀ now sid st,
       patch_service now sid data st = patch_service now sid data' st).
Proof.
  intros Hsame.
  assert (dict_get "type" data = dict_get "type" data') as Hty
    by (apply Hsame; unfold patchable; elem_list).
  assert (dict_get "name" data = dict_get "name" data') as Hnm
    by (apply Hsame; unfold patchable; elem_list).
  assert (dict_get "address" data = dict_get "address" data') as Had
    by (apply Hsame; unfold patchable; elem_list).
  assert (dict_get "hours" data = dict_get "hours" data') as Hhr
    by (apply Hsame; unfold patchable; elem_list).
  assert (dict_get "phone" data = dict_get "phone" data') as Hph
    by (apply Hsame; unfold patchable; elem_list).
  assert (missing_fields data = missing_fields data') as Hmiss.
  { unfold missing_fields, required, get_truthy. cbn [List.filter].
    by rewrite Hty, Hnm, Had. }
  split; [|split].
  - intros rnd now send_ok st.
    unfold create_service, item, get_or_empty.
    by rewrite Hmiss, Hty, Hnm, Had, Hhr, Hph.
  - intros now sid st. unfold put_service, item, get_or_empty.
    by rewrite Hmiss, Hty, Hnm, Had, Hhr, Hph.
  - intros now sid st.
    unfold patch_service, apply_patch, patchable, patch_key.
    cbn [List.fold_left]. by rewrite Hty, Hnm, Had, Hhr, Hph.
Qed.

Lemma foreign_keys_ignored_witness :
  patch_service sample_now sample_sid
    [("id", JStr "mine"); ("hours", JStr "9-5"); ("updatedAt", JStr "never")]
    sample_state
  = patch_service sample_now sample_sid [("hours", JStr "9-5")] sample_state.
Proof.
  apply (foreign_keys_ignored
           [("id", JStr "mine"); ("hours", JStr "9-5");
            ("updatedAt", JStr "never")]
           [("hours", JStr "9-5")]).
  intros k Hk. unfold patchable in Hk.
  repeat (apply elem_of_cons in Hk as [->|Hk]; [reflexivity|]).
  by apply elem_of_nil in Hk.
Defined.

(** X13 — a patch that supplies everything is a replace.  In a reachable
    registry, when the body has non-empty [type], [name] and [address]
    and also has [hours] and [phone], patch and replace give the same
    reply and leave the same state; they differ only when the body omits
    an optional field, which replace resets and patch keeps. *)
Theorem full_patch_is_replace st now sid data :
  reachable st →
  missing_fields data = [] →
  dict_mem "hours" data = true → dict_mem "phone" data = true →
  patch_service now sid data st = put_service now sid data st.
Proof.
  intros Hreach Hmiss Hhr Hph. pose proof (reachable_wf st Hreach) as Hwf.
  destruct (dict_get sid (services st)) as [rec|] eqn:Hget.
  - pose proof (wf_state_get st sid rec Hwf Hget) as Hrec.
    destruct (put_service_ok now sid data st rec Hrec Hget Hmiss)
      as (ty & nm & ad & Hty & Hnm & Had & _ & _ & _ & ->).
    rewrite (patch_service_found now sid data st rec);
      [|by eapply wf_record_nonempty|done].
    cbv zeta.
    assert (patched now data rec = record_of now sid data ty nm ad) as ->;
      [|done].
    apply wf_record_shape in Hrec
      as (ty0 & nm0 & ad0 & hr0 & ph0 & up0 & ->).
    unfold dict_mem in Hhr, Hph.
    unfold patched, apply_patch, patchable, patch_key, record_of, get_or_empty.
    cbn [List.fold_left]. rewrite Hty, Hnm, Had.
    destruct (dict_get "hours" data); [|done].
    destruct (dict_get "phone" data); [|done]. reflexivity.
  - by rewrite patch_service_unknown, put_service_unknown.
Qed.

Lemma full_patch_is_replace_witness :
  let data :=
    [("type", JStr "clinic"); ("name", JStr "Hope Clinic East");
     ("address", JStr "3 Elm Rd"); ("hours", JStr "9-5");
     ("phone", JStr "555-0100")] in
  reachable sample_state
  ∧ patch_service sample_now sample_sid data sample_state
    = put_service sample_now sample_sid data sample_state.
Proof.
  cbv zeta. split; [exact sample_reachable|].
  exact (full_patch_is_replace sample_state sample_now sample_sid
           [("type", JStr "clinic"); ("name", JStr "Hope Clinic East");
            ("address", JStr "3 Elm Rd"); ("hours", JStr "9-5");
            ("phone", JStr "555-0100")]
           sample_reachable eq_refl eq_refl eq_refl).
Defined.

Lemma dict_get_dump sid (d : pydict (pydict json)) :
  dict_get sid (List.map (λ kv, (fst kv, JObj (snd kv))) d)
  = JObj <$> dict_get sid d.
Proof.
  induction d as [|[k v] d IH]; simpl; [done|]. by destruct (String.eqb k sid).
Qed.

(** X14 — the debug dump and the reads.  In a reachable registry the
    dump answers 200 with an object that has one member for each stored
    id and no other, each id once: the member under an id is the record
    that [service(id)] resolves to and that a get of the id returns, and
    that record carries the id; an id that has no member is answered 404
    by get.  (Nothing is said of the order of the members: the response
    lists them sorted.) *)
Theorem debug_dump_matches_reads st :
  reachable st →
  ∃ entries,
    debug_services st
    = Reply {| status := 200; body_of := JsonBody (JObj entries);
               headers := [] |}
    ∧ NoDup (dict_keys entries)
    ∧ ∀ sid,
        match dict_get sid entries with
        | Some v =>
            ∃ rec,
              v = JObj rec
              ∧ dict_get "id" rec = Some (JStr sid)
              ∧ resolve_service sid st = Some rec
              ∧ get_service None sid st
                = Reply {| status := 200; body_of := JsonBody (JObj rec);
                           headers :=
                             [("ETag", compute_etag rec);
                              ("Cache-Control", cache_control)] |}
        | None =>
            resolve_service sid st = None
            ∧ ∀ inm, get_service inm sid st = Reply not_found
        end.
Proof.
  intros Hreach. pose proof (reachable_wf st Hreach) as Hwf.
  eexists. split; [done|]. split.
  - unfold dict_keys. rewrite map_map. cbn [fst]. apply Hwf.
  - intros sid. rewrite dict_get_dump. unfold resolve_service.
    destruct (dict_get sid (services st)) as [rec|] eqn:Hget; cbn [fmap option_fmap option_map].
    + pose proof (wf_state_get st sid rec Hwf Hget) as Hrec.
      exists rec. split; [done|]. split; [apply Hrec|]. split; [done|].
      by rewrite (get_service_found None sid st rec
                    (wf_record_nonempty sid rec Hrec) Hget).
    + split; [done|]. intros inm. by apply get_service_unknown.
Qed.

Lemma debug_dump_matches_reads_witness :
  reachable sample_state
  ∧ ∃ entries,
      debug_services sample_state
      = Reply {| status := 200; body_of := JsonBody (JObj entries);
                 headers := [] |}
      ∧ dict_get sample_sid entries = Some (JObj sample_record).
Proof.
  split; [exact sample_reachable|].
  destruct (debug_dump_matches_reads sample_state sample_reachable)
    as (entries & Hdump & _ & _).
  exists entries. split; [exact Hdump|].
  injection Hdump as <-. reflexivity.
Defined.

(** ** The shape of a generated identifier *)

Lemma string_forall_substring p n m s :
  string_forall p s = true → string_forall p (String.substring n m s) = true.
Proof.
  unfold string_forall. revert n m.
  induction s as [|c s IH]; intros n m; [by destruct n, m|].
  cbn [list_ascii_of_string List.forallb].
  intros [Hc Hs]%andb_true_iff.
  destruct n as [|n]; [destruct m as [|m]|]; cbn [String.substring]; [done| |].
  - cbn [list_ascii_of_string List.forallb]. by rewrite Hc, IH.
  - by apply IH.
Qed.

Lemma hex_fixed_id_chars w n : string_forall is_id_char (hex_fixed w n) = true.
Proof.
  induction w as [|w IH]; [done|]. cbn [hex_fixed].
  unfold string_forall, is_id_char in *.
  cbn [list_ascii_of_string List.forallb].
  by rewrite hex_digit_lower, IH.
Qed.

Lemma uuid4_version_bits rnd : Z.shiftr (uuid4_int rnd) 76 mod 16 = 4.
Proof.
  unfold uuid4_int. cbv zeta. generalize (rnd mod 2 ^ 128). intros r.
  rewrite Z.shiftr_lor, Z.shiftr_land.
  change (Z.shiftr (Z.shiftl 4 76) 76) with 4.
  change (Z.shiftr (Z.lnot (Z.shiftl 0xf000 64)) 76) with (-16).
  change 16 with (2 ^ 4). rewrite <- Z.land_ones by lia.
  change (Z.ones 4) with 15.
  rewrite Z.land_lor_distr_l, <- Z.land_assoc.
  change (Z.land (-16) 15) with 0. by rewrite Z.land_0_r.
Qed.

Lemma uuid4_variant_bits rnd :
  ∃ x, 0 <= x < 4 ∧ Z.shiftr (uuid4_int rnd) 60 mod 16 = 8 + x.
Proof.
  unfold uuid4_int. cbv zeta. generalize (rnd mod 2 ^ 128). intros r.
  rewrite Z.shiftr_lor, Z.shiftr_land, Z.shiftr_lor, Z.shiftr_land.
  change (Z.shiftr (Z.shiftl 4 76) 60) with 262144.
  change (Z.shiftr (Z.lnot (Z.shiftl 0xf000 64)) 60) with (-983041).
  change (Z.shiftr (Z.shiftl 0x8000 48) 60) with 8.
  change (Z.shiftr (Z.lnot (Z.shiftl 0xc000 48)) 60) with (-13).
  change 16 with (2 ^ 4). rewrite <- Z.land_ones by lia.
  change (Z.ones 4) with 15.
  rewrite Z.land_lor_distr_l. change (Z.land 262144 15) with 0.
  rewrite Z.lor_0_r, <- Z.land_assoc. change (Z.land (-983041) 15) with 15.
  rewrite Z.land_lor_distr_l, <- Z.land_assoc.
  change (Z.land (-13) 15) with 3. change (Z.land 8 15) with 8.
  change 3 with (Z.ones 2). rewrite Z.land_ones by lia.
  pose proof (Z.mod_pos_bound (Z.shiftr r 60) (2 ^ 2) ltac:(lia)) as Hb.
  exists (Z.shiftr r 60 mod 2 ^ 2). split; [done|].
  set (x := Z.shiftr r 60 mod 2 ^ 2) in *.
  assert (x = 0 ∨ x = 1 ∨ x = 2 ∨ x = 3) as Hx by lia.
  destruct Hx as [Hx|[Hx|[Hx|Hx]]]; rewrite Hx; reflexivity.
Qed.

(** X15 — the shape of a generated id.  Whatever the random bits, the id
    that create generates has 36 characters, all of them digits, letters
    from [a] to [f] or hyphens, with the hyphens at the positions 8, 13,
    18 and 23; the character at position 14 is the version digit [4] and
    the character at position 19 is one of [8], [9], [a], [b]. *)
Theorem generated_id_shape rnd :
  let sid := uuid4 rnd in
  String.length sid = 36%nat
  ∧ string_forall is_id_char sid = true
  ∧ String.get 8 sid = Some "-"%char ∧ String.get 13 sid = Some "-"%char
  ∧ String.get 18 sid = Some "-"%char ∧ String.get 23 sid = Some "-"%char
  ∧ String.get 14 sid = Some "4"%char
  ∧ (String.get 19 sid = Some "8"%char ∨ String.get 19 sid = Some "9"%char
     ∨ String.get 19 sid = Some "a"%char ∨ String.get 19 sid = Some "b"%char).
Proof.
  intros sid. subst sid. split; [apply uuid4_length|]. split.
  { unfold uuid4, uuid_str. cbv zeta. rewrite !string_forall_app.
    by rewrite !string_forall_substring by apply hex_fixed_id_chars. }
  do 4 (split; [reflexivity|]).
  assert (String.get 14 (uuid4 rnd)
          = Some (hex_digit (Z.shiftr (uuid4_int rnd) 76))) as -> by reflexivity.
  assert (String.get 19 (uuid4 rnd)
          = Some (hex_digit (Z.shiftr (uuid4_int rnd) 60))) as -> by reflexivity.
  unfold hex_digit. rewrite uuid4_version_bits. split; [reflexivity|].
  destruct (uuid4_variant_bits rnd) as (x & Hx & ->).
  assert (x = 0 ∨ x = 1 ∨ x = 2 ∨ x = 3) as Hcases by lia.
  destruct Hcases as [-> | [-> | [-> | ->] ] ]; auto.
Qed.

(** ** Where the stored ids come from *)

Lemma run_keys r st k :
  wf_state st →
  k ∈ dict_keys (services (fst (run r st))) →
  k ∈ dict_keys (services st)
  ∨ ∃ rnd now send_ok data, r = Create rnd now send_ok data ∧ k = uuid4 rnd.
Proof.
  intros Hwf.
  destruct r as [rnd now send_ok data|t|inm sid|now sid data
                |now sid data|sid|send_ok h|h]; simpl; auto.
  - destruct (decide (missing_fields data = [])) as [Hmiss|Hmiss].
    + destruct (create_service_ok rnd now send_ok data st Hmiss)
        as (ty & nm & ad & _ & _ & _ & _ & _ & _ & ->).
      cbv zeta. cbn [after services]. intros Hk.
      destruct (decide (k = uuid4 rnd)) as [->|Hne]; [right; by eauto 6|].
      left. apply dict_mem_keys. apply dict_mem_keys in Hk.
      unfold dict_mem in *. by rewrite dict_get_set_ne in Hk.
    + rewrite create_service_missing by done. auto.
  - destruct (dict_get sid (services st)) as [rec|] eqn:Hget.
    + pose proof (wf_state_get st sid rec Hwf Hget) as Hrec.
      destruct (decide (missing_fields data = [])) as [Hmiss|Hmiss].
      * destruct (put_service_ok now sid data st rec Hrec Hget Hmiss)
          as (ty & nm & ad & _ & _ & _ & _ & _ & _ & ->).
        cbv zeta. cbn [answer after services].
        rewrite dict_keys_set_old by (by eapply dict_get_Some_keys). auto.
      * rewrite (put_service_missing now sid data st rec) by done. auto.
    + rewrite put_service_unknown by done. auto.
  - destruct (dict_get sid (services st)) as [rec|] eqn:Hget.
    + pose proof (wf_state_get st sid rec Hwf Hget) as Hrec.
      rewrite (patch_service_found now sid data st rec);
        [|by eapply wf_record_nonempty|done].
      cbn [answer after services].
      rewrite dict_keys_set_old by (by eapply dict_get_Some_keys). auto.
    + rewrite patch_service_unknown by done. auto.
  - destruct (dict_get sid (services st)) as [rec|] eqn:Hget.
    + rewrite (delete_service_found sid st rec Hget).
      cbn [answer after services]. intros Hk. left.
      by apply (dict_keys_del_subseteq sid (services st)).
    + rewrite delete_service_unknown by done. auto.
Qed.

(** X16 — every stored id was generated.  In a reachable registry each
    id under which a record is stored is an id that some create
    generated: no request stores a record under an id of the caller's
    choosing, so an id that has not the shape of a generated id is
    answered 404 by get, replace, patch and delete. *)
Theorem stored_ids_are_generated st :
  reachable st →
  (∀ sid, dict_mem sid (services st) = true → ∃ rnd, sid = uuid4 rnd)
  ∧ ∀ sid,
      String.length sid ≠ 36%nat →
      (∀ inm, get_service inm sid st = Reply not_found)
      ∧ (∀ now data, put_service now sid data st = answer st not_found)
      ∧ (∀ now data, patch_service now sid data st = answer st not_found)
      ∧ delete_service sid st = answer st not_found.
Proof.
  intros Hreach.
  assert (∀ sid, dict_mem sid (services st) = true → ∃ rnd, sid = uuid4 rnd)
    as Hgen.
  { induction Hreach as [|r st Hreach IH]; intros sid Hmem.
    - discriminate Hmem.
    - apply dict_mem_keys in Hmem.
      destruct (run_keys r st sid (reachable_wf st Hreach) Hmem)
        as [Hold|(rnd & _ & _ & _ & _ & ->)]; [|by eauto].
      apply IH. by apply dict_mem_keys. }
  split; [exact Hgen|].
  intros sid Hlen.
  assert (dict_get sid (services st) = None) as Hget.
  { destruct (dict_get sid (services st)) as [rec|] eqn:Hget; [|done].
    destruct (Hgen sid) as [rnd ->]; [unfold dict_mem; by rewrite Hget|].
    by rewrite uuid4_length in Hlen. }
  split; [intros inm; by apply get_service_unknown|].
  split; [intros now data; by apply put_service_unknown|].
  split; [intros now data; by apply patch_service_unknown|].
  by apply delete_service_unknown.
Qed.

Lemma stored_ids_are_generated_witness :
  reachable sample_state ∧ ∃ rnd, sample_sid = uuid4 rnd.
Proof.
  split; [exact sample_reachable|].
  apply (proj1 (stored_ids_are_generated sample_state sample_reachable)).
  reflexivity.
Defined.
